(** * SMS scam checker: the rule-based classifier and the mode selector

    A shallow embedding of [ScamChecker] (the class behind [checkMessage])
    and of the values it computes with.

    - JavaScript strings are sequences of UTF-16 code units: [jsstring] is
      [list N].  [length], [split('')] and the comparison [c >= 'A'] all work
      on code units, and so does this model.
    - JavaScript numbers are modelled by [jsnum]: an exact rational, the two
      infinities, or NaN.  The rounding of IEEE doubles is not modelled, and
      neither is the sign of zero.  The comparisons of the classifier do not
      feel the rounding: a total below 30 is below 25, and the capitals
      fraction c/n is 0.3 itself or at least 1/(10 n) away from it.
    - The regular expressions are the literals of [scamPatterns], as syntax
      trees, run by a backtracking matcher with the priorities of the
      ECMAScript pattern semantics (greedy quantifiers, left alternative
      first).
    - What the runtime provides and the repository does not define
      ([Number.prototype.toFixed], [JSON.parse], the [OpenAI] constructor) is
      a field of the record [Runtime]; every definition that calls one of
      them takes the runtime as an argument. *)

From Stdlib Require Import QArith Qminmax Qround Qabs NArith Ascii String DecimalString.
From stdpp Require Import base option list.
From Stdlib Require Import Lia.

Local Open Scope N_scope.

(* ===================================================================== *)
(** ** Strings                                                            *)
(* ===================================================================== *)

Definition jsstring := list N.

Definition js (s : string) : jsstring :=
  map N_of_ascii (list_ascii_of_string s).
Arguments js s%_string.

(** [`${n}`] for a non-negative integer below 1e21: its decimal digits. *)
Definition Number_toString (n : nat) : jsstring :=
  js (NilZero.string_of_uint (Nat.to_uint n)).

Fixpoint startsWith (needle s : jsstring) : bool :=
  match needle, s with
  | [], _ => true
  | _ :: _, [] => false
  | a :: needle', b :: s' => (a =? b) && startsWith needle' s'
  end.

(** [s.includes(needle)]: the needle occurs at some index of [s]. *)
Fixpoint includes (needle s : jsstring) : bool :=
  startsWith needle s ||
  match s with
  | [] => false
  | _ :: s' => includes needle s'
  end.

(** [parts.join(sep)] *)
Fixpoint join (sep : jsstring) (parts : list jsstring) : jsstring :=
  match parts with
  | [] => []
  | [p] => p
  | p :: rest => p ++ sep ++ join sep rest
  end.

(* ===================================================================== *)
(** ** Numbers                                                            *)
(* ===================================================================== *)

Inductive jsnum : Type :=
| Fin (q : Q)
| PInf
| NInf
| NaN.

Definition Qlt_bool (a b : Q) : bool := negb (Qle_bool b a).

Definition of_nat (n : nat) : jsnum := Fin (inject_Z (Z.of_nat n)).

Definition js_add (a b : jsnum) : jsnum :=
  match a, b with
  | NaN, _ | _, NaN => NaN
  | PInf, NInf | NInf, PInf => NaN
  | PInf, _ | _, PInf => PInf
  | NInf, _ | _, NInf => NInf
  | Fin x, Fin y => Fin (x + y)
  end.

Definition js_neg (a : jsnum) : jsnum :=
  match a with
  | Fin x => Fin (- x)
  | PInf => NInf
  | NInf => PInf
  | NaN => NaN
  end.

Definition js_sub (a b : jsnum) : jsnum := js_add a (js_neg b).

Definition inf_of_sign (positive : bool) : jsnum :=
  if positive then PInf else NInf.

Definition js_mul (a b : jsnum) : jsnum :=
  match a, b with
  | NaN, _ | _, NaN => NaN
  | Fin x, Fin y => Fin (x * y)
  | Fin x, PInf | PInf, Fin x =>
      if Qeq_bool x 0 then NaN else inf_of_sign (Qlt_bool 0 x)
  | Fin x, NInf | NInf, Fin x =>
      if Qeq_bool x 0 then NaN else inf_of_sign (Qlt_bool x 0)
  | PInf, PInf | NInf, NInf => PInf
  | PInf, NInf | NInf, PInf => NInf
  end.

(** Division; a zero divisor is taken as +0. *)
Definition js_div (a b : jsnum) : jsnum :=
  match a, b with
  | NaN, _ | _, NaN => NaN
  | Fin x, Fin y =>
      if Qeq_bool y 0
      then (if Qeq_bool x 0 then NaN else inf_of_sign (Qlt_bool 0 x))
      else Fin (x / y)
  | Fin _, (PInf | NInf) => Fin 0
  | (PInf | NInf), (PInf | NInf) => NaN
  | PInf, Fin y => inf_of_sign (Qle_bool 0 y)
  | NInf, Fin y => inf_of_sign (Qlt_bool y 0)
  end.

(** [a <= b]; every comparison with NaN is false. *)
Definition js_le (a b : jsnum) : bool :=
  match a, b with
  | NaN, _ | _, NaN => false
  | NInf, _ | _, PInf => true
  | PInf, _ | _, NInf => false
  | Fin x, Fin y => Qle_bool x y
  end.

Definition js_lt (a b : jsnum) : bool :=
  match a, b with
  | NaN, _ | _, NaN => false
  | PInf, _ | _, NInf => false
  | NInf, _ | _, PInf => true
  | Fin x, Fin y => Qlt_bool x y
  end.

Definition js_ge (a b : jsnum) : bool := js_le b a.
Definition js_gt (a b : jsnum) : bool := js_lt b a.

Definition Math_min (a b : jsnum) : jsnum :=
  match a, b with
  | NaN, _ | _, NaN => NaN
  | _, _ => if js_le a b then a else b
  end.

Definition Math_max (a b : jsnum) : jsnum :=
  match a, b with
  | NaN, _ | _, NaN => NaN
  | _, _ => if js_le a b then b else a
  end.

(** A number lies in the closed interval [[lo, hi]]. *)
Definition in_range (lo hi : Q) (a : jsnum) : Prop :=
  match a with
  | Fin q => (lo <= q)%Q /\ (q <= hi)%Q
  | _ => False
  end.

(** Equality of numbers as values ([Q] has several fractions per value). *)
Definition num_eq (a b : jsnum) : Prop :=
  match a, b with
  | Fin x, Fin y => (x == y)%Q
  | PInf, PInf | NInf, NInf => True
  | _, _ => False
  end.

(* ===================================================================== *)
(** ** Regular expressions                                                *)
(* ===================================================================== *)

(** A character class: a union of code-unit ranges, possibly negated. *)
Record cset : Type := CSet { cs_negated : bool; cs_ranges : list (N * N) }.

Definition in_ranges (x : N) (rs : list (N * N)) : bool :=
  existsb (fun r => (fst r <=? x) && (x <=? snd r)) rs.

Definition cset_mem (x : N) (c : cset) : bool :=
  xorb (cs_negated c) (in_ranges x (cs_ranges c)).

Inductive regex : Type :=
| Eps
| Chr (c : cset)
| Cat (r1 r2 : regex)
| Alt (r1 r2 : regex)
| Rep (lo : nat) (hi : option nat) (c : cset).   (* c{lo,hi}, greedy *)

(** The greedy quantifier over a character class, RepeatMatcher of the
    ECMAScript semantics: take one more character first, and fall back to
    the continuation where that fails and the minimum is reached. *)
Fixpoint rep_match (c : cset) (lo : nat) (hi : option nat) (s : jsstring)
    (k : jsstring -> option jsstring) : option jsstring :=
  match hi with
  | Some O => k s
  | _ =>
      match s with
      | x :: s' =>
          if cset_mem x c then
            let z := rep_match c (Nat.pred lo) (Nat.pred <$> hi) s' k in
            match lo with
            | O => match z with Some e => Some e | None => k s end
            | S _ => z
            end
          else match lo with O => k s | S _ => None end
      | [] => match lo with O => k s | S _ => None end
      end
  end.

(** The matcher of a pattern: [s] is the input from the current index on,
    [k] the continuation; the result is the input left after the whole
    match. *)
Fixpoint matcher (r : regex) (s : jsstring)
    (k : jsstring -> option jsstring) : option jsstring :=
  match r with
  | Eps => k s
  | Chr c =>
      match s with
      | x :: s' => if cset_mem x c then k s' else None
      | [] => None
      end
  | Cat r1 r2 => matcher r1 s (fun s' => matcher r2 s' k)
  | Alt r1 r2 =>
      match matcher r1 s k with
      | Some e => Some e
      | None => matcher r2 s k
      end
  | Rep lo hi c => rep_match c lo hi s k
  end.

(** A match that starts at the current index: what is left after it. *)
Definition match_here (r : regex) (s : jsstring) : option jsstring :=
  matcher r s Some.

(** RegExpBuiltinExec without the sticky flag: the first index from which
    the pattern matches; the result is the input from that index on and the
    input left after the match. *)
Fixpoint exec (r : regex) (s : jsstring) : option (jsstring * jsstring) :=
  match match_here r s with
  | Some e => Some (s, e)
  | None =>
      match s with
      | [] => None
      | _ :: s' => exec r s'
      end
  end.

(** [r.test(s)] for a pattern without the [g] and [y] flags. *)
Definition RegExp_test (r : regex) (s : jsstring) : bool :=
  match exec r s with Some _ => true | None => false end.

(** The matched substring: [whole] without its suffix [rest]. *)
Definition matched (whole rest : jsstring) : jsstring :=
  take (length whole - length rest)%nat whole.

(** [s.match(r)] for a pattern with the [g] flag: the successive matches,
    each search starting where the previous match ended (one code unit
    further after an empty match); [None] is JavaScript's [null]. *)
Fixpoint match_all (fuel : nat) (r : regex) (s : jsstring) : list jsstring :=
  match fuel with
  | O => []
  | S fuel' =>
      match exec r s with
      | None => []
      | Some (from, e) =>
          matched from e ::
          (if (length e <? length from)%nat
           then match_all fuel' r e
           else match from with
                | [] => []
                | _ :: from' => match_all fuel' r from'
                end)
      end
  end.

Definition String_match_g (r : regex) (s : jsstring) : option (list jsstring) :=
  match match_all (S (length s)) r s with
  | [] => None
  | ms => Some ms
  end.

(* ===================================================================== *)
(** ** The pattern literals                                               *)
(* ===================================================================== *)

Definition single (x : N) : cset := CSet false [(x, x)].

(** A pattern character under the [i] flag (no [u] flag): code units whose
    canonical form, their upper-case code unit, is the same.  For an ASCII
    letter these are its two cases and nothing else, since a code unit above
    127 never canonicalises to an ASCII one. *)
Definition single_i (x : N) : cset :=
  if (97 <=? x) && (x <=? 122) then CSet false [(x, x); (x - 32, x - 32)]
  else if (65 <=? x) && (x <=? 90) then CSet false [(x, x); (x + 32, x + 32)]
  else single x.

Fixpoint seq_of (f : N -> cset) (s : jsstring) : regex :=
  match s with
  | [] => Eps
  | [x] => Chr (f x)
  | x :: s' => Cat (Chr (f x)) (seq_of f s')
  end.

Definition lit (s : string) : regex := seq_of single (js s).
Definition lit_i (s : string) : regex := seq_of single_i (js s).
Arguments lit s%_string.
Arguments lit_i s%_string.

(** [\d] *)
Definition digit : cset := CSet false [(48, 57)].

(** [\s]: WhiteSpace and LineTerminator code units. *)
Definition white_ranges : list (N * N) :=
  [(9, 13); (32, 32); (160, 160); (5760, 5760); (8192, 8202); (8232, 8233);
   (8239, 8239); (8287, 8287); (12288, 12288); (65279, 65279)].
Definition white : cset := CSet false white_ranges.
(** [[^\s]] *)
Definition non_white : cset := CSet true white_ranges.
(** [.] without the [s] flag: anything but a line terminator. *)
Definition dot : cset := CSet true [(10, 10); (13, 13); (8232, 8233)].

Definition star (c : cset) : regex := Rep 0 None c.
Definition plus (c : cset) : regex := Rep 1 None c.
Definition opt (c : cset) : regex := Rep 0 (Some 1%nat) c.

Fixpoint alts (r : regex) (rs : list regex) : regex :=
  match rs with
  | [] => r
  | r' :: rs' => Alt r (alts r' rs')
  end.

Fixpoint cats (r : regex) (rs : list regex) : regex :=
  match rs with
  | [] => r
  | r' :: rs' => Cat r (cats r' rs')
  end.

Definition scamPatterns : list regex :=
  [ (* 0: /https?:\/\/[^\s]{1,20}\.[^\s]{2,5}/i *)
    cats (lit_i "http")
      [opt (single_i 115); lit "://"; Rep 1 (Some 20%nat) non_white;
       Chr (single 46); Rep 2 (Some 5%nat) non_white];
    (* 1: /bitcoin|btc|crypto|ethereum|eth|usdt/i *)
    alts (lit_i "bitcoin")
      [lit_i "btc"; lit_i "crypto"; lit_i "ethereum"; lit_i "eth"; lit_i "usdt"];
    (* 2: /\d{9,}/ *)
    Rep 9 None digit;
    (* 3: /urgent|verify|account.*suspend/i *)
    alts (lit_i "urgent")
      [lit_i "verify"; cats (lit_i "account") [star dot; lit_i "suspend"]];
    (* 4: /limited time|act now|expires|deadline/i *)
    alts (lit_i "limited time")
      [lit_i "act now"; lit_i "expires"; lit_i "deadline"];
    (* 5: /won|prize|claim|lottery|free money/i *)
    alts (lit_i "won")
      [lit_i "prize"; lit_i "claim"; lit_i "lottery"; lit_i "free money"];
    (* 6: /password|pin|ssn|social security/i *)
    alts (lit_i "password")
      [lit_i "pin"; lit_i "ssn"; lit_i "social security"];
    (* 7: /bank details|credit card|cvv|expiry/i *)
    alts (lit_i "bank details")
      [lit_i "credit card"; lit_i "cvv"; lit_i "expiry"];
    (* 8: /\$\d+,\d+|\d+\s*%\s*discount/i *)
    Alt (cats (Chr (single 36)) [plus digit; Chr (single 44); plus digit])
        (cats (plus digit) [star white; Chr (single 37); star white;
                            lit_i "discount"]);
    (* 9: /update.*account|confirm.*details/i *)
    Alt (cats (lit_i "update") [star dot; lit_i "account"])
        (cats (lit_i "confirm") [star dot; lit_i "details"]);
    (* 10: /western union|moneygram|wire transfer/i *)
    alts (lit_i "western union") [lit_i "moneygram"; lit_i "wire transfer"];
    (* 11: /[!?]{2,}/ *)
    Rep 2 None (CSet false [(33, 33); (63, 63)]);
    (* 12: /[A-Z]{5,}/ *)
    Rep 5 None (CSet false [(65, 90)]);
    (* 13: /\d{1,3}[,.]\d{3}[,.]\d{3}/ *)
    cats (Rep 1 (Some 3%nat) digit)
      [Chr (CSet false [(44, 44); (46, 46)]); Rep 3 (Some 3%nat) digit;
       Chr (CSet false [(44, 44); (46, 46)]); Rep 3 (Some 3%nat) digit] ].

(** [/https?:\/\//g], the pattern of the URL count (no [i] flag). *)
Definition urlPattern : regex :=
  cats (lit "http") [opt (single 115); lit "://"].

(* ===================================================================== *)
(** ** Results, JSON values and the runtime                               *)
(* ===================================================================== *)

Record AnalysisResult : Type := mkResult {
  isScam : bool;
  confidence : jsnum;
  explanation : jsstring
}.

(** A number literal of a JSON text: finite, or beyond the range of a
    double, which [JSON.parse] turns into an infinity.  JSON has no literal
    for NaN. *)
Inductive json_number : Type :=
| JFinite (q : Q)
| JOverflow (positive : bool).

Definition number_of_json (n : json_number) : jsnum :=
  match n with
  | JFinite q => Fin q
  | JOverflow positive => inf_of_sign positive
  end.

#[warnings="-register-all"]
Inductive JSON : Type :=
| JNull
| JBool (b : bool)
| JNum (n : json_number)
| JStr (s : jsstring)
| JArr (items : list JSON)
| JObj (fields : list (jsstring * JSON)).   (* each name once *)

Definition jsstring_eqb (a b : jsstring) : bool :=
  (length a =? length b)%nat && startsWith a b.

Fixpoint assoc (key : jsstring) (fields : list (jsstring * JSON)) : option JSON :=
  match fields with
  | [] => None
  | (k, v) :: rest => if jsstring_eqb k key then Some v else assoc key rest
  end.

(** A value that was thrown, as the handler of [checkMessage] sees it: its
    [message] when it is an object whose [message] is a string. *)
Inductive thrown : Type := Thrown (message : option jsstring).

Definition Error (message : string) : thrown := Thrown (Some (js message)).
Arguments Error message%_string.

Record OpenAI : Type := mkOpenAI { client_apiKey : jsstring }.

Record Runtime : Type := mkRuntime {
  (** [x.toFixed(digits)] *)
  toFixed : jsnum -> nat -> jsstring;
  (** [JSON.parse(text)]: the value, or the message of the SyntaxError *)
  JSON_parse : jsstring -> jsstring + JSON;
  (** the message of the TypeError for a property read on [null] *)
  TypeError_null : jsstring -> jsstring;
  (** [new OpenAI({apiKey, dangerouslyAllowBrowser: true})]; [None] when the
      constructor throws *)
  new_OpenAI : jsstring -> option OpenAI
}.

(** [v.name]: [inl] is the TypeError on [null], [None] is [undefined]. *)
Definition get_property (rt : Runtime) (v : JSON) (name : string)
    : thrown + option JSON :=
  match v with
  | JNull => inl (Thrown (Some (TypeError_null rt (js name))))
  | JObj fields => inr (assoc (js name) fields)
  | _ => inr None
  end.
Arguments get_property rt v name%_string.

(* ===================================================================== *)
(** ** The rule-based classifier                                          *)
(* ===================================================================== *)

(** The loop over [scamPatterns]: [i] is the index of the head of [ps],
    the state is [(matchCount, matchedPatterns)]. *)
Fixpoint scan (ps : list regex) (i : nat) (messageText : jsstring)
    (st : nat * list nat) : nat * list nat :=
  match ps with
  | [] => st
  | p :: ps' =>
      scan ps' (S i) messageText
        (if RegExp_test p messageText
         then (S (fst st), snd st ++ [i])
         else st)
  end.

Definition matchCount (messageText : jsstring) : nat :=
  fst (scan scamPatterns 0 messageText (0%nat, [])).
Definition matchedPatterns (messageText : jsstring) : list nat :=
  snd (scan scamPatterns 0 messageText (0%nat, [])).

(** [a <= b] on strings: by code units, a proper prefix first. *)
Fixpoint str_le (a b : jsstring) : bool :=
  match a, b with
  | [], _ => true
  | _ :: _, [] => false
  | x :: a', y :: b' => (x <? y) || ((x =? y) && str_le a' b')
  end.

(** [s.split('')]: one string per code unit. *)
Definition split_units (s : jsstring) : list jsstring := map (fun c => [c]) s.

Definition lengthScore (messageText : jsstring) : jsnum :=
  Math_min (js_div (of_nat (length messageText)) (of_nat 20)) (of_nat 5).

(** [(messageText.match(/https?:\/\//g) || []).length * 10] *)
Definition urlCount (messageText : jsstring) : jsnum :=
  js_mul (of_nat (length (default [] (String_match_g urlPattern messageText))))
         (of_nat 10).

Definition capsPercentage (messageText : jsstring) : jsnum :=
  js_div
    (of_nat (length (List.filter
                       (fun c => str_le (js "A") c && str_le c (js "Z"))
                       (split_units messageText))))
    (of_nat (length messageText)).

Definition capsScore (messageText : jsstring) : jsnum :=
  if js_gt (capsPercentage messageText) (Fin (3 # 10)) then of_nat 10 else of_nat 0.

Definition totalScore (messageText : jsstring) : jsnum :=
  js_add (js_add (js_add (js_mul (of_nat (matchCount messageText)) (of_nat 10))
                         (lengthScore messageText))
                 (urlCount messageText))
         (capsScore messageText).

Definition confidenceScore (messageText : jsstring) : jsnum :=
  Math_min (totalScore messageText) (of_nat 100).

Definition scamThreshold : jsnum := of_nat 30.

(** The [indicators] array of the scam branch. *)
Definition indicators (messageText : jsstring) : list jsstring :=
  let mp := matchedPatterns messageText in
  (if existsb (Nat.eqb 0) mp then [js "suspicious links"] else []) ++
  (if existsb (Nat.eqb 1) mp then [js "cryptocurrency references"] else []) ++
  (if existsb (Nat.eqb 2) mp then [js "sensitive numbers"] else []) ++
  (if existsb (fun p => (3 <=? p)%nat && (p <=? 9)%nat) mp
   then [js "urgency/pressure tactics"] else []) ++
  (if existsb (fun p => (10 <=? p)%nat) mp
   then [js "suspicious formatting"] else []) ++
  (if js_gt (urlCount messageText) (of_nat 0)
   then [Number_toString
           (match String_match_g urlPattern messageText with
            | Some ms => match length ms with O => 0%nat | n => n end
            | None => 0%nat
            end) ++ js " URLs"]
   else []).

Definition disclaimer : jsstring :=
  js " Note: This analysis uses rule-based detection without AI assistance.".

Definition capsSentence : jsstring :=
  js " The message contains excessive use of capital letters.".

Section Classifier.
Variable rt : Runtime.

Definition scamExplanation (messageText : jsstring) : jsstring :=
  let e0 :=
    js "Rule-based analysis detected " ++
    Number_toString (matchCount messageText) ++
    js " potential scam indicators with a confidence score of " ++
    toFixed rt (confidenceScore messageText) 1 ++ js "." in
  let e1 :=
    if (0 <? length (matchedPatterns messageText))%nat
    then e0 ++ js " Suspicious elements include: " ++
         join (js ", ") (indicators messageText)
    else e0 in
  if js_gt (capsScore messageText) (of_nat 0) then e1 ++ capsSentence else e1.

Definition safeExplanation (messageText : jsstring) : jsstring :=
  let e0 :=
    js "Rule-based analysis found limited scam indicators (score: " ++
    toFixed rt (confidenceScore messageText) 1 ++ js ")." in
  if (0 <? matchCount messageText)%nat
  then e0 ++ js " Some potentially concerning elements were found, but they didn't reach the threshold for classification as a scam."
  else e0 ++ js " No common scam patterns were detected.".

Definition performOfflineAnalysis (messageText : jsstring) : AnalysisResult :=
  let isScam := js_ge (confidenceScore messageText) scamThreshold in
  let explanation :=
    (if isScam then scamExplanation messageText
     else safeExplanation messageText) ++ disclaimer in
  {| isScam := isScam;
     confidence :=
       if isScam then confidenceScore messageText
       else js_sub (of_nat 100) (confidenceScore messageText);
     explanation := explanation |}.

End Classifier.

(* ===================================================================== *)
(** ** The mode selector                                                  *)
(* ===================================================================== *)

(** [ScamCheckerConfig]: every field optional. *)
Record ScamCheckerConfig : Type := mkConfig {
  cfg_apiKey : option jsstring;
  cfg_model : option jsstring;
  cfg_temperature : option jsnum;
  cfg_forceOfflineMode : option bool
}.

(** [Required<ScamCheckerConfig>] *)
Record Config : Type := mkRequired {
  apiKey : jsstring;
  model : jsstring;
  temperature : jsnum;
  forceOfflineMode : bool
}.

Record ScamChecker : Type := mkChecker {
  openai : option OpenAI;
  config : Config;
  isOfflineMode : bool
}.

(** What [getEnvironmentApiKey] can see: [window] (with its
    [__OPENAI_API_KEY]) where there is one, and [process.env] (with
    [NEXT_PUBLIC_OPENAI_API_KEY] and [OPENAI_API_KEY]) where there is one. *)
Record Env : Type := mkEnv {
  env_window : option (option jsstring);
  env_process : option (option jsstring * option jsstring)
}.

(** A string operand of [||] that is truthy: defined and not empty. *)
Definition truthy (o : option jsstring) : option jsstring :=
  match o with
  | Some ((_ :: _) as s) => Some s
  | _ => None
  end.

Definition getEnvironmentApiKey (e : Env) : option jsstring :=
  let node :=
    match env_process e with
    | Some (_, key) => truthy key
    | None => None
    end in
  match env_window e with
  | Some w =>
      match truthy w with
      | Some key => Some key
      | None =>
          match env_process e with
          | Some (publicKey, _) => truthy publicKey
          | None => node
          end
      end
  | None => node
  end.

(** One outbound chat-completion request. *)
Record Request : Type := mkRequest {
  req_model : jsstring;
  req_temperature : jsnum;
  req_userContent : jsstring
}.

(** What the awaited request gives back to [checkMessage]: the promise is
    rejected (or reading [choices[0].message.content] throws), or there is
    a content, [None] for [null]. *)
Inductive reply : Type :=
| Rejected (e : thrown)
| Content (content : option jsstring).

(** The three substrings that mark a quota or rate-limit error. *)
Definition quotaSignature (errorMessage : jsstring) : bool :=
  includes (js "429") errorMessage ||
  includes (js "exceeded your current quota") errorMessage ||
  includes (js "rate limit") errorMessage.

(** [Math.max(0, Math.min(100, x))] *)
Definition clamp (x : jsnum) : jsnum :=
  Math_max (of_nat 0) (Math_min (of_nat 100) x).

Section Selector.
Variable rt : Runtime.

Definition initOpenAI (this : ScamChecker) : ScamChecker :=
  match apiKey (config this) with
  | [] => mkChecker (openai this) (config this) true
  | key =>
      match new_OpenAI rt key with
      | Some client => mkChecker (Some client) (config this) (isOfflineMode this)
      | None => mkChecker None (config this) true
      end
  end.

Definition constructor (e : Env) (c : ScamCheckerConfig) : ScamChecker :=
  let cfg :=
    {| apiKey :=
         match truthy (cfg_apiKey c) with
         | Some key => key
         | None => default [] (getEnvironmentApiKey e)
         end;
       model := default (js "gpt-3.5-turbo") (truthy (cfg_model c));
       temperature := default (Fin (3 # 10)) (cfg_temperature c);
       forceOfflineMode := default false (cfg_forceOfflineMode c) |} in
  let this := mkChecker None cfg false in
  if forceOfflineMode cfg
  then mkChecker (openai this) (config this) true
  else initOpenAI this.

Definition setApiKey (key : jsstring) (this : ScamChecker) : ScamChecker :=
  let cfg := config this in
  let this1 :=
    mkChecker (openai this)
      (mkRequired key (model cfg) (temperature cfg) (forceOfflineMode cfg))
      (isOfflineMode this) in
  let this2 := mkChecker (openai this1) (config this1) false in
  initOpenAI this2.

Definition setOfflineMode (enabled : bool) (this : ScamChecker) : ScamChecker :=
  let this1 := mkChecker (openai this) (config this) enabled in
  if negb enabled && negb (bool_decide (is_Some (openai this1)))
  then initOpenAI this1
  else this1.

(** The body of the [try] after the request has come back: the result
    that is returned, or what is thrown. *)
Definition validate (r : reply) : thrown + AnalysisResult :=
  match r with
  | Rejected e => inl e
  | Content content =>
      match truthy content with
      | None => inl (Error "Empty response from OpenAI")
      | Some text =>
          match JSON_parse rt text with
          | inl syntaxError => inl (Thrown (Some syntaxError))
          | inr result =>
              match get_property rt result "isScam" with
              | inl e => inl e
              | inr (Some (JBool b)) =>
                  match get_property rt result "confidence" with
                  | inl e => inl e
                  | inr (Some (JNum n)) =>
                      match get_property rt result "explanation" with
                      | inl e => inl e
                      | inr (Some (JStr s)) =>
                          inr (mkResult b (clamp (number_of_json n)) s)
                      | inr _ => inl (Error "Invalid response format from OpenAI")
                      end
                  | inr _ => inl (Error "Invalid response format from OpenAI")
                  end
              | inr _ => inl (Error "Invalid response format from OpenAI")
              end
          end
      end
  end.

(** The request of [checkMessage] (the system prompt is a constant and is
    left out). *)
Definition request_of (this : ScamChecker) (messageText : jsstring) : Request :=
  mkRequest (model (config this)) (temperature (config this))
    (js "Analyze this message:" ++ [10; 34] ++ messageText ++ [34]).

(** The outcome of one call. *)
Record Outcome : Type := mkOutcome {
  out_result : AnalysisResult;
  out_quotaExceeded : bool;         (* the static flag afterwards *)
  out_this : ScamChecker;           (* the instance afterwards *)
  out_request : option Request      (* the request sent, if any *)
}.

(** [checkMessage]: [quotaExceeded] is the static flag, [r] what the
    remote service answers to the request should one be sent. *)
Definition checkMessage (messageText : jsstring) (r : reply)
    (quotaExceeded : bool) (this : ScamChecker) : Outcome :=
  if quotaExceeded then
    mkOutcome (performOfflineAnalysis rt messageText) quotaExceeded this None
  else if isOfflineMode this || negb (bool_decide (is_Some (openai this))) then
    mkOutcome (performOfflineAnalysis rt messageText) quotaExceeded this None
  else
    let sent := Some (request_of this messageText) in
    match validate r with
    | inr result => mkOutcome result quotaExceeded this sent
    | inl (Thrown (Some errorMessage)) =>
        if quotaSignature errorMessage then
          mkOutcome (performOfflineAnalysis rt messageText) true
            (mkChecker (openai this) (config this) true) sent
        else
          mkOutcome (performOfflineAnalysis rt messageText) quotaExceeded this sent
    | inl (Thrown None) =>
        mkOutcome (performOfflineAnalysis rt messageText) quotaExceeded this sent
    end.

(** *** The process: the static flag, the instances, the requests sent *)

Record World : Type := mkWorld {
  quotaExceeded : bool;
  env : Env;
  heap : list ScamChecker;          (* an instance is named by its index *)
  requests : list Request
}.

Inductive Op : Type :=
| New (c : ScamCheckerConfig)
| SetApiKey (this : nat) (key : jsstring)
| SetOfflineMode (this : nat) (enabled : bool)
| CheckMessage (this : nat) (messageText : jsstring) (r : reply)
| ResetQuotaStatus
(** the standalone [checkMessage(messageText, apiKey, offlineMode)] *)
| Standalone (messageText : jsstring) (key : option jsstring)
             (offlineMode : bool) (r : reply).

Definition update_instance (i : nat) (f : ScamChecker -> ScamChecker)
    (w : World) : World :=
  match heap w !! i with
  | Some this =>
      mkWorld (quotaExceeded w) (env w) (<[i := f this]> (heap w)) (requests w)
  | None => w
  end.

Definition call_checkMessage (i : nat) (messageText : jsstring) (r : reply)
    (w : World) : World * option AnalysisResult :=
  match heap w !! i with
  | Some this =>
      let o := checkMessage messageText r (quotaExceeded w) this in
      (mkWorld (out_quotaExceeded o) (env w) (<[i := out_this o]> (heap w))
               (requests w ++ option_list (out_request o)),
       Some (out_result o))
  | None => (w, None)
  end.

Definition new_instance (c : ScamCheckerConfig) (w : World) : World :=
  mkWorld (quotaExceeded w) (env w) (heap w ++ [constructor (env w) c])
          (requests w).

(** One operation of a client program; a call of [checkMessage] also
    gives its result.  An operation on an index that names no instance
    does nothing. *)
Definition step (op : Op) (w : World) : World * option AnalysisResult :=
  match op with
  | New c => (new_instance c w, None)
  | SetApiKey i key => (update_instance i (setApiKey key) w, None)
  | SetOfflineMode i enabled => (update_instance i (setOfflineMode enabled) w, None)
  | CheckMessage i messageText r => call_checkMessage i messageText r w
  | ResetQuotaStatus => (mkWorld false (env w) (heap w) (requests w), None)
  | Standalone messageText key offlineMode r =>
      call_checkMessage (length (heap w)) messageText r
        (new_instance (mkConfig key None None (Some offlineMode)) w)
  end.

(** A sequence of operations: the final state and the results of the
    calls of [checkMessage], with the text each was called on, in order. *)
Definition text_of (op : Op) : jsstring :=
  match op with
  | CheckMessage _ t _ | Standalone t _ _ _ => t
  | _ => []
  end.

Fixpoint run (ops : list Op) (w : World)
    : World * list (jsstring * AnalysisResult) :=
  match ops with
  | [] => (w, [])
  | op :: ops' =>
      let (w1, res) := step op w in
      let (w2, rs) := run ops' w1 in
      (w2, match res with
           | Some a => (text_of op, a) :: rs
           | None => rs
           end)
  end.

End Selector.

(* ===================================================================== *)
(** ** What the patterns mean                                             *)
(* ===================================================================== *)

(** The strings a pattern matches, independently of any matching order. *)
Inductive lang : regex -> jsstring -> Prop :=
| lang_eps : lang Eps []
| lang_chr c x : cset_mem x c = true -> lang (Chr c) [x]
| lang_cat r1 r2 s1 s2 :
    lang r1 s1 -> lang r2 s2 -> lang (Cat r1 r2) (s1 ++ s2)
| lang_alt_l r1 r2 s : lang r1 s -> lang (Alt r1 r2) s
| lang_alt_r r1 r2 s : lang r2 s -> lang (Alt r1 r2) s
| lang_rep lo hi c s :
    Forall (fun x => cset_mem x c = true) s ->
    (lo <= length s)%nat ->
    (forall h, hi = Some h -> (length s <= h)%nat) ->
    lang (Rep lo hi c) s.

(** A quantifier [{lo,hi}] with [hi < lo] is a syntax error. *)
Fixpoint wf (r : regex) : bool :=
  match r with
  | Eps | Chr _ => true
  | Cat r1 r2 | Alt r1 r2 => wf r1 && wf r2
  | Rep lo (Some h) _ => (lo <=? h)%nat
  | Rep _ None _ => true
  end.

(** Rule [i] of [scamPatterns] matches somewhere in the text. *)
Definition rule_matches (messageText : jsstring) (i : nat) : bool :=
  match scamPatterns !! i with
  | Some p => RegExp_test p messageText
  | None => false
  end.

(** The indices of the rules that match, each once, in increasing order. *)
Definition matching_rules (messageText : jsstring) : list nat :=
  List.filter (rule_matches messageText) (seq 0 (length scamPatterns)).

(** The text starts with [http://] or [https://]. *)
Definition scheme_here (s : jsstring) : bool :=
  startsWith (js "http://") s || startsWith (js "https://") s.

(** The number of indices of the text at which such a prefix starts. *)
Fixpoint url_occurrences (s : jsstring) : nat :=
  match s with
  | [] => 0
  | _ :: s' => (if scheme_here s then 1 else 0) + url_occurrences s'
  end.

(** The number of code units between [A] and [Z]. *)
Definition ascii_capitals (s : jsstring) : nat :=
  length (List.filter (fun c => (65 <=? c) && (c <=? 90)) s).

(** The scoring algorithm as it is specified, in exact arithmetic. *)
Module Spec.

Definition matchCount (t : jsstring) : nat := length (matching_rules t).

Definition lengthScore (t : jsstring) : Q :=
  Qmin (inject_Z (Z.of_nat (length t)) / 20) 5.

Definition urlCount (t : jsstring) : Q :=
  10 * inject_Z (Z.of_nat (url_occurrences t)).

(** 10 when more than three tenths of the code units are ASCII capitals. *)
Definition capsScore (t : jsstring) : Q :=
  if (3 * length t <? 10 * ascii_capitals t)%nat then 10 else 0.

Definition totalScore (t : jsstring) : Q :=
  10 * inject_Z (Z.of_nat (matchCount t)) + lengthScore t + urlCount t
  + capsScore t.

Definition confidenceScore (t : jsstring) : Q := Qmin (totalScore t) 100.

Definition isScam (t : jsstring) : bool := Qle_bool 30 (confidenceScore t).

End Spec.

(* ===================================================================== *)
(** ** Notions the statements are written with                           *)
(* ===================================================================== *)

(** The indices pushed by the loop from index [i] on. *)
Fixpoint pushed (ps : list regex) (i : nat) (t : jsstring) : list nat :=
  match ps with
  | [] => []
  | p :: ps' => (if RegExp_test p t then [i] else []) ++ pushed ps' (S i) t
  end.

(** The response is well typed: an object with a boolean [isScam], a
    number [confidence] and a string [explanation]. *)
Definition well_typed (rt : Runtime) (v : JSON) : option (bool * json_number * jsstring) :=
  match get_property rt v "isScam", get_property rt v "confidence",
        get_property rt v "explanation" with
  | inr (Some (JBool b)), inr (Some (JNum n)), inr (Some (JStr s)) => Some (b, n, s)
  | _, _, _ => None
  end.

(** The ways the remote attempt fails, with what is thrown in each. *)
Inductive remote_failure (rt : Runtime) : reply -> thrown -> Prop :=
| transport_error e :
    remote_failure rt (Rejected e) e
| empty_content content :
    truthy content = None ->
    remote_failure rt (Content content) (Error "Empty response from OpenAI")
| parse_failure x text syntaxError :
    JSON_parse rt (x :: text) = inl syntaxError ->
    remote_failure rt (Content (Some (x :: text))) (Thrown (Some syntaxError))
| mistyped_field x text v :
    JSON_parse rt (x :: text) = inr v ->
    v <> JNull ->
    well_typed rt v = None ->
    remote_failure rt (Content (Some (x :: text)))
      (Error "Invalid response format from OpenAI")
| null_response x text :
    JSON_parse rt (x :: text) = inr JNull ->
    remote_failure rt (Content (Some (x :: text)))
      (Thrown (Some (TypeError_null rt (js "isScam")))).

(** The error is a quota or rate-limit error for the handler: it has a
    string message with one of the three signatures. *)
Definition quota_error (e : thrown) : bool :=
  match e with
  | Thrown (Some errorMessage) => quotaSignature errorMessage
  | Thrown None => false
  end.

(** The call reaches the remote service. *)
Definition online (quotaExceeded : bool) (this : ScamChecker) : bool :=
  negb quotaExceeded && negb (isOfflineMode this) &&
  bool_decide (is_Some (openai this)).


(* ===================================================================== *)
(** ** A runtime to run the examples with                                 *)
(* ===================================================================== *)

Fixpoint zeros (n : nat) : jsstring :=
  match n with O => [] | S n' => 48 :: zeros n' end.

(** [toFixed] on the exact value, a tie rounded upward. *)
Definition toFixed_exact (x : jsnum) (digits : nat) : jsstring :=
  match x with
  | NaN => js "NaN"
  | PInf => js "Infinity"
  | NInf => js "-Infinity"
  | Fin q =>
      let scale := (10 ^ Z.of_nat digits)%Z in
      let n := Qfloor (Qabs q * inject_Z scale + (1 # 2)) in
      let whole := Number_toString (Z.to_nat (n / scale)) in
      let frac := Number_toString (Z.to_nat (n mod scale)) in
      (if Qlt_bool q 0 && (0 <? n)%Z then js "-" else []) ++ whole ++
      match digits with
      | O => []
      | _ => js "." ++ zeros (digits - length frac) ++ frac
      end
  end.

Definition quoted (s : string) : jsstring := [34] ++ js s ++ [34].
Arguments quoted s%_string.

(** A well-typed response whose confidence is out of range. *)
Definition sample_content : jsstring :=
  js "{" ++ quoted "isScam" ++ js ":true," ++ quoted "confidence" ++
  js ":250," ++ quoted "explanation" ++ js ":" ++ quoted "prize scam" ++ js "}".

(** A runtime for the examples: its [JSON.parse] knows [sample_content]
    and rejects every other text. *)
Definition sample_runtime : Runtime :=
  {| toFixed := toFixed_exact;
     JSON_parse := fun text =>
       if jsstring_eqb text sample_content
       then inr (JObj [(js "isScam", JBool true);
                       (js "confidence", JNum (JFinite 250));
                       (js "explanation", JStr (js "prize scam"))])
       else inl (js "Unexpected token in JSON at position 0");
     TypeError_null := fun name =>
       js "Cannot read properties of null (reading '" ++ name ++ js "')";
     new_OpenAI := fun key => Some (mkOpenAI key) |}.

Definition scenarioA : jsstring :=
  js "WIN A FREE PRIZE!!! Click http://bit.ly/x now, limited time, verify your account".
Definition scenarioB : jsstring :=
  js "Hey, are we still meeting for lunch tomorrow?".
(** Three scheme prefixes, none followed by a host. *)
Definition bare_schemes : jsstring := js "http:// http:// http://".

(* ===================================================================== *)
(** ** The explanation of a scam verdict, as specified                    *)
(* ===================================================================== *)

(** The categories in their canonical order: links, crypto terms,
    sensitive numbers, the urgency group (rules 3 to 9), the formatting
    group (rules 10 to 13), and the URL count when it is not zero. *)
Definition categories (t : jsstring) : list jsstring :=
  (if rule_matches t 0 then [js "suspicious links"] else []) ++
  (if rule_matches t 1 then [js "cryptocurrency references"] else []) ++
  (if rule_matches t 2 then [js "sensitive numbers"] else []) ++
  (if existsb (rule_matches t) (seq 3 7)
   then [js "urgency/pressure tactics"] else []) ++
  (if existsb (rule_matches t) (seq 10 4)
   then [js "suspicious formatting"] else []) ++
  (if (0 <? url_occurrences t)%nat
   then [Number_toString (url_occurrences t) ++ js " URLs"] else []).

(** The sentence with the indicator count and the score. *)
Definition scam_head (rt : Runtime) (t : jsstring) : jsstring :=
  js "Rule-based analysis detected " ++ Number_toString (Spec.matchCount t) ++
  js " potential scam indicators with a confidence score of " ++
  toFixed rt (confidenceScore t) 1 ++ js ".".

Definition listing (t : jsstring) : jsstring :=
  js " Suspicious elements include: " ++ join (js ", ") (categories t).

Definition caps_part (t : jsstring) : jsstring :=
  if js_gt (capsScore t) (of_nat 0) then capsSentence else [].

(** The explanation of a scam verdict as the specification words it: the
    categories that are triggered are listed, the URL count among them
    whenever it is not zero. *)
Definition stated_explanation (rt : Runtime) (t : jsstring) : jsstring :=
  scam_head rt t ++
  (match categories t with [] => [] | _ => listing t end) ++
  caps_part t ++ disclaimer.

(** The explanation of a scam verdict as the code builds it: the list is
    there when at least one rule matched. *)
Definition listed_explanation (rt : Runtime) (t : jsstring) : jsstring :=
  scam_head rt t ++
  (if (0 <? Spec.matchCount t)%nat then listing t else []) ++
  caps_part t ++ disclaimer.

(** A Node process with [OPENAI_API_KEY] set, nothing done yet. *)
Definition sample_env : Env := mkEnv None (Some (None, Some (js "sk-env"))).
Definition sample_world : World := mkWorld false sample_env [] [].

(** An instance with a key of its own: it reaches the remote service. *)
Definition online_checker : ScamChecker :=
  constructor sample_runtime sample_env
    (mkConfig (Some (js "sk-test")) None None None).

Definition not_json : reply := Content (Some (js "not json")).
Definition quota_reply : reply :=
  Rejected (Error "429 You exceeded your current quota").

(* ===================================================================== *)
(** ** Notions for the configuration and the process                      *)
(* ===================================================================== *)

(** The credential the constructor settles on: the explicit one when it is
    not empty, else the one of the environment, else the empty string. *)
Definition resolveApiKey (e : Env) (c : ScamCheckerConfig) : jsstring :=
  match truthy (cfg_apiKey c) with
  | Some key => key
  | None => default [] (getEnvironmentApiKey e)
  end.

(** An instance without a client has its offline flag set. *)
Definition consistent (this : ScamChecker) : Prop :=
  openai this = None -> isOfflineMode this = true.

(** The standalone [checkMessage(messageText, apiKey, offlineMode)] as a
    function of its own: a new instance, one call on it. *)
Definition standalone_checkMessage (rt : Runtime) (messageText : jsstring)
    (key : option jsstring) (offlineMode : bool) (r : reply) (w : World)
    : AnalysisResult * World :=
  let checker := constructor rt (env w) (mkConfig key None None (Some offlineMode)) in
  let o := checkMessage rt messageText r (quotaExceeded w) checker in
  (out_result o,
   mkWorld (out_quotaExceeded o) (env w) (heap w ++ [out_this o])
           (requests w ++ option_list (out_request o))).

(** The operation is a call of [checkMessage]. *)
Definition is_call (op : Op) : bool :=
  match op with
  | CheckMessage _ _ _ | Standalone _ _ _ _ => true
  | _ => false
  end.

(** Two states of an instance have the same model, temperature and
    [forceOfflineMode]. *)
Definition same_settings (x y : ScamChecker) : Prop :=
  model (config y) = model (config x) /\
  temperature (config y) = temperature (config x) /\
  forceOfflineMode (config y) = forceOfflineMode (config x).

(** The number of ten-point contributions to the total: one per matching
    rule, one per URL prefix, one for the capitals. *)
Definition weight (t : jsstring) : nat :=
  (matchCount t + url_occurrences t +
   (if 3 * length t <? 10 * ascii_capitals t then 1 else 0))%nat.

(* ===================================================================== *)
(** ** The page: [SmsFilter] and [MessageHistory]                         *)
(* ===================================================================== *)

(** The state hooks of [SmsFilter] are a record, an event handler is a
    function on it; a handler runs to its end before the next event, so
    [analyzing], which is true only while the call is awaited, is seen
    false.  Of a toast the title and the description are kept. *)

(** [n.toString()] for a non-negative integer below 1e21. *)
Definition Integer_toString (n : N) : jsstring :=
  js (NilZero.string_of_uint (N.to_uint n)).

(** [s.trim()]: white space and line terminators off both ends. *)
Fixpoint trimStart (s : jsstring) : jsstring :=
  match s with
  | x :: s' => if cset_mem x white then trimStart s' else s
  | [] => []
  end.

Definition trim (s : jsstring) : jsstring :=
  rev (trimStart (rev (trimStart s))).

Record Message : Type := mkMessage {
  msg_id : jsstring;
  msg_text : jsstring;
  msg_result : option AnalysisResult;
  msg_timestamp : N
}.

Record SmsFilter : Type := mkSmsFilter {
  message : jsstring;
  analyzing : bool;
  currentResult : option AnalysisResult;
  history : list Message
}.

Record Toast : Type := mkToast {
  toast_title : jsstring;
  toast_description : jsstring
}.

(** What follows the [await] in [handleAnalyze]: [awaited] is the result of
    [checkMessage], or what it rejected with; [now] is [Date.now()] and
    [date] is [new Date()]. *)
Definition finishAnalyze (now date : N) (text : jsstring)
    (awaited : thrown + AnalysisResult) (ui : SmsFilter) : SmsFilter * Toast :=
  match awaited with
  | inr result =>
      let newMessage := mkMessage (Integer_toString now) text (Some result) date in
      (mkSmsFilter (message ui) false (Some result) (newMessage :: history ui),
       if isScam result
       then mkToast (js "Potential scam detected!")
              (js "This message has characteristics of a scam. Be cautious!")
       else mkToast (js "Message appears safe")
              (js "This message appears to be legitimate."))
  | inl _ =>
      (mkSmsFilter (message ui) false (currentResult ui) (history ui),
       mkToast (js "Analysis failed")
         (js "Unable to analyze the message. Please try again."))
  end.

Definition handleAnalyze (rt : Runtime) (now date : N) (r : reply)
    (ui : SmsFilter) (w : World) : SmsFilter * World * Toast :=
  match trim (message ui) with
  | [] =>
      (ui, w, mkToast (js "Empty message")
                (js "Please enter an SMS message to analyze."))
  | _ =>
      let s := standalone_checkMessage rt (message ui) None false r w in
      let f := finishAnalyze now date (message ui) (inr s.1)
                 (mkSmsFilter (message ui) true (currentResult ui) (history ui)) in
      (f.1, s.2, f.2)
  end.

Definition handleClear (ui : SmsFilter) : SmsFilter :=
  mkSmsFilter [] (analyzing ui) None (history ui).

Definition clearHistory (ui : SmsFilter) : SmsFilter * Toast :=
  (mkSmsFilter (message ui) (analyzing ui) (currentResult ui) [],
   mkToast (js "History cleared")
     (js "All analyzed messages have been removed from history.")).

(** What the user does on the page. *)
Inductive UiEvent : Type :=
| TypeMessage (text : jsstring)             (* [onChange] of the text area *)
| ClickAnalyze (now date : N) (r : reply)
| ClickClear
| ClickClearAll.

Definition ui_step (rt : Runtime) (ev : UiEvent) (s : SmsFilter * World)
    : SmsFilter * World :=
  match ev with
  | TypeMessage text =>
      (mkSmsFilter text (analyzing s.1) (currentResult s.1) (history s.1), s.2)
  | ClickAnalyze now date r => (handleAnalyze rt now date r s.1 s.2).1
  | ClickClear => (handleClear s.1, s.2)
  | ClickClearAll => ((clearHistory s.1).1, s.2)
  end.

Definition ui_run (rt : Runtime) (evs : list UiEvent) (s : SmsFilter * World)
    : SmsFilter * World :=
  fold_left (fun s ev => ui_step rt ev s) evs s.

(** One entry of [MessageHistory]: the badge, the text, the confidence. *)
Record HistoryRow : Type := mkRow {
  row_badge : jsstring;
  row_text : jsstring;
  row_confidence : option jsnum
}.

(** The row of one message: [message.result?.isScam] decides the badge. *)
Definition history_row (m : Message) : HistoryRow :=
  mkRow (if match msg_result m with
            | Some res => isScam res
            | None => false
            end
         then js "Scam" else js "Safe")
        (msg_text m)
        (confidence <$> msg_result m).

(** [MessageHistory]: [None] is the placeholder for an empty history. *)
Definition MessageHistory (messages : list Message) : option (list HistoryRow) :=
  match messages with
  | [] => None
  | _ => Some (map history_row messages)
  end.

(** The text is blank: nothing but white space and line terminators. *)
Definition blank (s : jsstring) : bool := forallb (fun x => cset_mem x white) s.

(** An entry of the history as the page makes them: a text that is not
    blank, with a result whose confidence lies in [0, 100]. *)
Definition analysed (m : Message) : Prop :=
  blank (msg_text m) = false /\
  exists res, msg_result m = Some res /\ in_range 0 100 (confidence res).

(** The result panel shows nothing, or the result of the newest entry. *)
Definition panel_current (ui : SmsFilter) : Prop :=
  match history ui with
  | m :: _ => currentResult ui = None \/ currentResult ui = msg_result m
  | [] => True
  end.


(* ===================================================================== *)
(** ** The matcher finds what the patterns mean                           *)
(* ===================================================================== *)

Lemma is_Some_orelse {A} (a b : option A) :
  is_Some (match a with Some e => Some e | None => b end) <->
  is_Some a \/ is_Some b.
Proof.
  destruct a as [e|].
  - split; eauto.
  - split; [auto | intros [[x H]|H]; [discriminate | exact H]].
Qed.

Lemma rep_match_spec c s : forall lo hi k,
  (forall h, hi = Some h -> (lo <= h)%nat) ->
  is_Some (rep_match c lo hi s k) <->
  exists s1 s2, s = s1 ++ s2 /\
    Forall (fun x => cset_mem x c = true) s1 /\
    (lo <= length s1)%nat /\
    (forall h, hi = Some h -> (length s1 <= h)%nat) /\
    is_Some (k s2).
Proof.
  induction s as [|x s IH]; intros lo hi k Hwf.
  - assert (E : rep_match c lo hi [] k = match lo with O => k [] | S _ => None end).
    { destruct hi as [[|h]|]; simpl; try reflexivity.
      specialize (Hwf 0%nat eq_refl). destruct lo; [reflexivity | lia]. }
    rewrite E. split.
    + destruct lo; [|intros [? ?]; discriminate].
      intros H. exists [], []. repeat split; auto; simpl; lia.
    + intros (s1 & s2 & Hs & _ & Hlo & _ & Hk).
      symmetry in Hs. apply app_eq_nil in Hs as [-> ->].
      simpl in Hlo. destruct lo; [exact Hk | lia].
  - destruct (decide (hi = Some 0%nat)) as [->|Hhi].
    + simpl. specialize (Hwf 0%nat eq_refl). assert (lo = 0%nat) as -> by lia.
      split.
      * intros H. exists [], (x :: s). repeat split; auto; simpl; lia.
      * intros (s1 & s2 & Hs & _ & _ & Hh & Hk).
        specialize (Hh 0%nat eq_refl). destruct s1; [|simpl in Hh; lia].
        simpl in Hs. subst s2. exact Hk.
    + assert (E : rep_match c lo hi (x :: s) k =
                  if cset_mem x c then
                    let z := rep_match c (Nat.pred lo) (Nat.pred <$> hi) s k in
                    match lo with
                    | O => match z with Some e => Some e | None => k (x :: s) end
                    | S _ => z
                    end
                  else match lo with O => k (x :: s) | S _ => None end).
      { destruct hi as [[|h]|]; [congruence | reflexivity | reflexivity]. }
      rewrite E. clear E.
      assert (Hwf' : forall h, Nat.pred <$> hi = Some h -> (Nat.pred lo <= h)%nat).
      { intros h Hh. destruct hi as [h0|]; simpl in Hh; [|discriminate].
        injection Hh as <-. specialize (Hwf h0 eq_refl). lia. }
      specialize (IH (Nat.pred lo) (Nat.pred <$> hi) k Hwf').
      destruct (cset_mem x c) eqn:Hx.
      * cbv zeta.
        assert (Hstep :
          (exists s1 s2, x :: s = s1 ++ s2 /\
             Forall (fun x => cset_mem x c = true) s1 /\ (lo <= length s1)%nat /\
             (forall h, hi = Some h -> (length s1 <= h)%nat) /\ is_Some (k s2)) <->
          (lo = 0%nat /\ is_Some (k (x :: s))) \/
          is_Some (rep_match c (Nat.pred lo) (Nat.pred <$> hi) s k)).
        { rewrite IH. split.
          - intros (s1 & s2 & Hs & Hall & Hlo & Hh & Hk).
            destruct s1 as [|y s1].
            + left. simpl in *. subst s2. split; [lia | exact Hk].
            + right. simpl in Hs. injection Hs as <- ->.
              exists s1, s2. inversion Hall; subst. repeat split; auto.
              * simpl in Hlo. lia.
              * intros h Hh'. destruct hi as [h0|]; simpl in Hh'; [|discriminate].
                injection Hh' as <-. specialize (Hh h0 eq_refl). simpl in Hh.
                destruct h0; [congruence|]. simpl. lia.
          - intros [[-> Hk] | (s1 & s2 & -> & Hall & Hlo & Hh & Hk)].
            + exists [], (x :: s). repeat split; auto; simpl; try lia.
            + exists (x :: s1), s2. repeat split; auto.
              * simpl. lia.
              * intros h ->. simpl. destruct h; [congruence|].
                specialize (Hh h eq_refl). lia. }
        rewrite Hstep. destruct lo.
        -- rewrite is_Some_orelse. split; intros [H|H]; auto. right. apply H.
        -- split; [auto | intros [[? _]|H]; [lia | exact H]].
      * split.
        -- destruct lo; [|intros [? ?]; discriminate].
           intros H. exists [], (x :: s). repeat split; auto; simpl; lia.
        -- intros (s1 & s2 & Hs & Hall & Hlo & _ & Hk).
           destruct s1 as [|y s1].
           ++ simpl in *. subst s2. destruct lo; [exact Hk | lia].
           ++ simpl in Hs. injection Hs as <- ->. inversion Hall; congruence.
Qed.

Lemma matcher_spec r : wf r = true -> forall s k,
  is_Some (matcher r s k) <->
  exists s1 s2, s = s1 ++ s2 /\ lang r s1 /\ is_Some (k s2).
Proof.
  induction r as [|c|r1 IH1 r2 IH2|r1 IH1 r2 IH2|lo hi c]; simpl; intros Hwf s k.
  - split.
    + intros H. exists [], s. split; [reflexivity | split; [constructor | exact H]].
    + intros (s1 & s2 & -> & Hl & Hk). inversion Hl; subst. exact Hk.
  - destruct s as [|x s].
    + split; [intros [? ?]; discriminate|].
      intros (s1 & s2 & Hs & Hl & _). inversion Hl; subst. discriminate.
    + destruct (cset_mem x c) eqn:Hx.
      * split.
        -- intros H. exists [x], s. split; [reflexivity | split; [constructor; exact Hx | exact H]].
        -- intros (s1 & s2 & Hs & Hl & Hk). inversion Hl; subst.
           simpl in Hs. injection Hs as _ ->. exact Hk.
      * split; [intros [? ?]; discriminate|].
        intros (s1 & s2 & Hs & Hl & _). inversion Hl; subst.
        simpl in Hs. injection Hs as -> _. congruence.
  - apply andb_prop in Hwf as [W1 W2].
    rewrite (IH1 W1). split.
    + intros (s1 & s2 & -> & Hl1 & Hk). apply (IH2 W2) in Hk.
      destruct Hk as (s3 & s4 & -> & Hl2 & Hk).
      exists (s1 ++ s3), s4. rewrite <- app_assoc.
      split; [reflexivity | split; [constructor; assumption | exact Hk]].
    + intros (s1 & s2 & -> & Hl & Hk). inversion Hl; subst.
      exists s0, (s3 ++ s2). rewrite <- app_assoc.
      split; [reflexivity | split; [assumption|]].
      apply (IH2 W2). exists s3, s2. auto.
  - apply andb_prop in Hwf as [W1 W2].
    rewrite is_Some_orelse, (IH1 W1), (IH2 W2). split.
    + intros [(s1 & s2 & -> & Hl & Hk)|(s1 & s2 & -> & Hl & Hk)];
        exists s1, s2; (split; [reflexivity | split; [|exact Hk]]).
      * apply lang_alt_l; exact Hl.
      * apply lang_alt_r; exact Hl.
    + intros (s1 & s2 & -> & Hl & Hk). inversion Hl; subst; [left | right];
        exists s1, s2; auto.
  - rewrite rep_match_spec.
    + split; intros (s1 & s2 & -> & H); exists s1, s2; (split; [reflexivity|]).
      * destruct H as (Hall & Hlo & Hh & Hk). split; [constructor; assumption | exact Hk].
      * destruct H as (Hl & Hk). inversion Hl; subst. auto.
    + intros h ->. apply Nat.leb_le. exact Hwf.
Qed.

(** [exec] stops at the first index from which the pattern matches. *)
Lemma exec_Some r s from e :
  exec r s = Some (from, e) ->
  exists pre, s = pre ++ from /\ match_here r from = Some e /\
    forall i, (i < length pre)%nat -> match_here r (drop i s) = None.
Proof.
  induction s as [|x s IH]; simpl.
  - destruct (match_here r []) as [e'|] eqn:E; [|discriminate].
    intros [= <- <-]. exists []. split; [reflexivity | split; [exact E|]].
    simpl. intros i Hi. lia.
  - destruct (match_here r (x :: s)) as [e'|] eqn:E.
    + intros [= <- <-]. exists []. split; [reflexivity | split; [exact E|]].
      simpl. intros i Hi. lia.
    + intros H. destruct (IH H) as (pre & -> & Hm & Hnone).
      exists (x :: pre). split; [reflexivity | split; [exact Hm|]].
      intros [|i] Hi; [exact E|]. simpl. apply Hnone. simpl in Hi. lia.
Qed.

Lemma exec_None r s :
  exec r s = None <-> forall i, (i <= length s)%nat -> match_here r (drop i s) = None.
Proof.
  induction s as [|x s IH]; simpl.
  - destruct (match_here r []) as [e'|] eqn:E.
    + split; [discriminate|]. intros H. specialize (H 0%nat (Nat.le_refl _)).
      simpl in H. congruence.
    + split; [|reflexivity]. intros _ i Hi. rewrite drop_nil. exact E.
  - destruct (match_here r (x :: s)) as [e'|] eqn:E.
    + split; [discriminate|]. intros H. specialize (H 0%nat (Nat.le_0_l _)).
      simpl in H. congruence.
    + rewrite IH. split.
      * intros H [|i] Hi; [exact E|]. simpl. apply H. lia.
      * intros H i Hi. apply (H (S i)). lia.
Qed.

(** The matcher is sound and complete: [test] answers [true] exactly when
    some substring of the text is in the language of the pattern. *)
Lemma RegExp_test_spec r s :
  wf r = true ->
  RegExp_test r s = true <-> exists a b c, s = a ++ b ++ c /\ lang r b.
Proof.
  intros Hwf. unfold RegExp_test. split.
  - destruct (exec r s) as [[from e]|] eqn:E; [|discriminate]. intros _.
    apply exec_Some in E as (pre & -> & Hm & _).
    assert (Hs : is_Some (matcher r from Some)) by (unfold match_here in Hm; eauto).
    apply (matcher_spec r Hwf) in Hs as (b & c & -> & Hl & _).
    exists pre, b, c. auto.
  - intros (a & b & c & -> & Hl).
    destruct (exec r (a ++ b ++ c)) as [[from e]|] eqn:E; [reflexivity|].
    exfalso. rewrite exec_None in E.
    specialize (E (length a)). rewrite drop_app_length in E.
    assert (Hs : is_Some (match_here r (b ++ c))).
    { apply (matcher_spec r Hwf). exists b, c. eauto. }
    rewrite E in Hs; [destruct Hs; discriminate|].
    rewrite length_app. lia.
Qed.

Lemma scamPatterns_wf : forallb wf scamPatterns = true.
Proof. reflexivity. Qed.

(* ===================================================================== *)
(** ** The loop over the rules                                            *)
(* ===================================================================== *)

Lemma scan_pushed ps t : forall i n acc,
  scan ps i t (n, acc) = ((n + length (pushed ps i t))%nat, acc ++ pushed ps i t).
Proof.
  induction ps as [|p ps IH]; intros i n acc; simpl.
  - rewrite Nat.add_0_r, app_nil_r. reflexivity.
  - destruct (RegExp_test p t); rewrite IH; simpl.
    + rewrite <- app_assoc. f_equal. lia.
    + reflexivity.
Qed.

Lemma pushed_filter ps t : forall i,
  pushed ps i t =
  List.filter (fun j => match ps !! (j - i)%nat with
                        | Some p => RegExp_test p t
                        | None => false
                        end)
              (seq i (length ps)).
Proof.
  induction ps as [|p ps IH]; intros i; simpl; [reflexivity|].
  rewrite Nat.sub_diag. simpl. rewrite IH.
  assert (E : List.filter
                (fun j => match ps !! (j - S i)%nat with
                          | Some p0 => RegExp_test p0 t
                          | None => false
                          end) (seq (S i) (length ps)) =
              List.filter
                (fun j => match (p :: ps) !! (j - i)%nat with
                          | Some p0 => RegExp_test p0 t
                          | None => false
                          end) (seq (S i) (length ps))).
  { apply filter_ext_in. intros j Hj. apply in_seq in Hj.
    replace (j - i)%nat with (S (j - S i)) by lia. reflexivity. }
  rewrite E. destruct (RegExp_test p t); reflexivity.
Qed.

Lemma matchedPatterns_spec t : matchedPatterns t = matching_rules t.
Proof.
  unfold matchedPatterns, matching_rules. rewrite scan_pushed. cbn [snd app].
  rewrite pushed_filter. apply filter_ext. intros j.
  unfold rule_matches. rewrite Nat.sub_0_r. reflexivity.
Qed.

Lemma matchCount_spec t : matchCount t = length (matching_rules t).
Proof.
  unfold matchCount. rewrite scan_pushed. cbn [fst Nat.add].
  rewrite <- matchedPatterns_spec. unfold matchedPatterns.
  rewrite scan_pushed. reflexivity.
Qed.

Lemma matching_rules_NoDup t : NoDup (matching_rules t).
Proof.
  unfold matching_rules. apply NoDup_ListNoDup, List.NoDup_filter, seq_NoDup.
Qed.

Lemma matching_rules_In t i :
  In i (matching_rules t) <-> rule_matches t i = true.
Proof.
  unfold matching_rules. rewrite filter_In, in_seq. split; [tauto|].
  intros H. split; [|exact H]. unfold rule_matches in H.
  destruct (scamPatterns !! i) eqn:E; [|discriminate].
  apply lookup_lt_Some in E. lia.
Qed.

Lemma matchCount_le t : (matchCount t <= 14)%nat.
Proof.
  rewrite matchCount_spec. unfold matching_rules.
  etransitivity; [apply List.filter_length_le|]. rewrite length_seq. reflexivity.
Qed.

(* ===================================================================== *)
(** ** The URL count                                                      *)
(* ===================================================================== *)

Lemma cset_mem_single a x : cset_mem x (single a) = (a =? x).
Proof.
  unfold cset_mem, single, in_ranges. simpl.
  destruct (N.eqb_spec a x) as [->|Hne].
  - rewrite N.leb_refl. reflexivity.
  - destruct (N.leb_spec a x), (N.leb_spec x a); simpl; try reflexivity. lia.
Qed.

Lemma matcher_lit w : forall s k,
  matcher (seq_of single w) s k =
  if startsWith w s then k (drop (length w) s) else None.
Proof.
  induction w as [|a w IH]; intros s k; [reflexivity|].
  assert (E : matcher (seq_of single (a :: w)) s k =
              match s with
              | x :: s' => if cset_mem x (single a)
                           then matcher (seq_of single w) s' k else None
              | [] => None
              end).
  { destruct w; simpl; destruct s; reflexivity. }
  rewrite E. destruct s as [|x s]; [reflexivity|].
  rewrite cset_mem_single, IH. simpl.
  destruct (a =? x); reflexivity.
Qed.

Lemma startsWith_app a : forall b s,
  startsWith (a ++ b) s = startsWith a s && startsWith b (drop (length a) s).
Proof.
  induction a as [|x a IH]; intros b s; simpl; [reflexivity|].
  destruct s as [|y s].
  - destruct (a ++ b); reflexivity.
  - rewrite IH, andb_assoc. reflexivity.
Qed.

Lemma startsWith_split w : forall s,
  startsWith w s = true -> s = w ++ drop (length w) s.
Proof.
  induction w as [|a w IH]; intros s H; simpl in *; [reflexivity|].
  destruct s as [|b s]; [discriminate|].
  apply andb_prop in H as [Hab Hw]. apply N.eqb_eq in Hab as ->.
  simpl. f_equal. apply IH, Hw.
Qed.

Lemma rep_match_zero c lo s k : rep_match c lo (Some 0%nat) s k = k s.
Proof. destruct s; reflexivity. Qed.

(** At one index the pattern of the URL count has at most one match: the
    longer prefix when the text has it there, else the shorter. *)
Lemma match_here_url s :
  match_here urlPattern s =
  if startsWith (js "https://") s then Some (drop 8 s)
  else if startsWith (js "http://") s then Some (drop 7 s)
  else None.
Proof.
  change (js "https://") with (js "http" ++ [115] ++ js "://").
  change (js "http://") with (js "http" ++ js "://").
  rewrite !startsWith_app.
  unfold match_here, urlPattern, cats, lit. cbn [matcher].
  rewrite matcher_lit.
  destruct (startsWith (js "http") s); [|reflexivity].
  cbn [andb]. change (length (js "http")) with 4%nat.
  change (length [115]) with 1%nat.
  rewrite drop_drop. change (4 + 1)%nat with 5%nat.
  assert (D3 : forall u, drop 3 (drop 4 u) = drop 7 (u : jsstring))
    by (intros u; rewrite drop_drop; reflexivity).
  destruct (drop 4 s) as [|x r] eqn:Er.
  - assert (E5 : drop 5 s = []).
    { change 5%nat with (4 + 1)%nat. rewrite <- drop_drop, Er. reflexivity. }
    rewrite E5. reflexivity.
  - assert (E5 : drop 5 s = r).
    { change 5%nat with (4 + 1)%nat. rewrite <- drop_drop, Er. reflexivity. }
    assert (E8 : drop 8 s = drop 3 r).
    { change 8%nat with (5 + 3)%nat. rewrite <- drop_drop, E5. reflexivity. }
    assert (E7 : drop 7 s = drop 3 (x :: r)).
    { change 7%nat with (4 + 3)%nat. rewrite <- drop_drop, Er. reflexivity. }
    rewrite E5, E8, E7. unfold opt.
    cbn [matcher rep_match fmap option_fmap option_map Nat.pred].
    rewrite cset_mem_single, rep_match_zero, !matcher_lit.
    change (length (js "://")) with 3%nat.
    change (startsWith [115] (x :: r)) with ((115 =? x) && true).
    rewrite andb_true_r.
    destruct (N.eqb_spec 115 x) as [<-|Hne]; cbn [andb].
    + destruct (startsWith (js "://") r); reflexivity.
    + reflexivity.
Qed.

Lemma scheme_here_iff s :
  scheme_here s = match match_here urlPattern s with Some _ => true | None => false end.
Proof.
  rewrite match_here_url. unfold scheme_here.
  destruct (startsWith (js "https://") s), (startsWith (js "http://") s); reflexivity.
Qed.

Lemma url_occurrences_skip m : forall e,
  Forall (fun x => x <> 104) m -> url_occurrences (m ++ e) = url_occurrences e.
Proof.
  induction m as [|x m IH]; intros e H; [reflexivity|].
  inversion H as [|? ? Hx Hm]; subst. simpl app.
  cbn [url_occurrences]. rewrite (IH e Hm).
  assert (E : scheme_here (x :: m ++ e) = false).
  { unfold scheme_here.
    change (js "http://") with (104 :: js "ttp://").
    change (js "https://") with (104 :: js "ttps://").
    cbn [startsWith]. apply N.eqb_neq in Hx.
    rewrite N.eqb_sym in Hx. rewrite Hx. reflexivity. }
  rewrite E. reflexivity.
Qed.

Lemma url_occurrences_first x m e s :
  s = x :: m ++ e -> Forall (fun y => y <> 104) m ->
  url_occurrences s = ((if scheme_here s then 1 else 0) + url_occurrences e)%nat.
Proof.
  intros -> Hm. cbn [url_occurrences]. rewrite (url_occurrences_skip m e Hm).
  reflexivity.
Qed.

(** A match is one occurrence, and no other occurrence starts inside it. *)
Lemma match_here_url_count s e :
  match_here urlPattern s = Some e ->
  url_occurrences s = S (url_occurrences e) /\ (length e < length s)%nat.
Proof.
  intros H. pose proof (scheme_here_iff s) as Hh. rewrite H in Hh.
  rewrite match_here_url in H.
  destruct (startsWith (js "https://") s) eqn:E8.
  - injection H as <-. apply startsWith_split in E8.
    change (length (js "https://")) with 8%nat in E8.
    split.
    + rewrite (url_occurrences_first 104 [116; 116; 112; 115; 58; 47; 47]
                 (drop 8 s) s E8), Hh; [reflexivity|].
      repeat constructor; discriminate.
    + rewrite E8 at 2. rewrite length_app. simpl. lia.
  - destruct (startsWith (js "http://") s) eqn:E7; [|discriminate].
    injection H as <-. apply startsWith_split in E7.
    change (length (js "http://")) with 7%nat in E7.
    split.
    + rewrite (url_occurrences_first 104 [116; 116; 112; 58; 47; 47]
                 (drop 7 s) s E7), Hh; [reflexivity|].
      repeat constructor; discriminate.
    + rewrite E7 at 2. rewrite length_app. simpl. lia.
Qed.

Lemma exec_url_None s : exec urlPattern s = None -> url_occurrences s = 0%nat.
Proof.
  induction s as [|x s IH]; [reflexivity|]. cbn [exec url_occurrences].
  rewrite scheme_here_iff.
  destruct (match_here urlPattern (x :: s)); [discriminate|].
  intros H. rewrite (IH H). reflexivity.
Qed.

Lemma exec_url_Some s : forall from e,
  exec urlPattern s = Some (from, e) ->
  url_occurrences s = S (url_occurrences e) /\ (length e < length s)%nat.
Proof.
  induction s as [|x s IH]; intros from e; cbn [exec].
  - destruct (match_here urlPattern []) eqn:E; [|discriminate].
    rewrite match_here_url in E. discriminate.
  - destruct (match_here urlPattern (x :: s)) as [e'|] eqn:E.
    + intros [= <- <-]. apply match_here_url_count, E.
    + intros H. destruct (IH _ _ H) as [Ho Hl]. split; [|simpl; lia].
      cbn [url_occurrences]. rewrite scheme_here_iff, E. exact Ho.
Qed.

Lemma exec_from_length r s : forall from e,
  exec r s = Some (from, e) -> (length from <= length s)%nat.
Proof.
  induction s as [|x s IH]; intros from e; cbn [exec].
  - destruct (match_here r []); [|discriminate]. intros [= <- <-]. reflexivity.
  - destruct (match_here r (x :: s)).
    + intros [= <- <-]. reflexivity.
    + intros H. apply IH in H. simpl. lia.
Qed.

Lemma match_all_url fuel : forall s,
  (length s < fuel)%nat ->
  length (match_all fuel urlPattern s) = url_occurrences s.
Proof.
  induction fuel as [|fuel IH]; intros s Hs; [lia|].
  cbn [match_all].
  destruct (exec urlPattern s) as [[from e]|] eqn:E.
  - pose proof (exec_url_Some _ _ _ E) as [Ho Hl].
    pose proof (exec_from_length _ _ _ _ E) as Hf.
    pose proof (exec_Some _ _ _ _ E) as (pre & -> & Hm & _).
    apply match_here_url_count in Hm as [_ Hlt].
    apply Nat.ltb_lt in Hlt. rewrite Hlt. cbn [length].
    rewrite IH; [symmetry; exact Ho | lia].
  - symmetry. apply exec_url_None, E.
Qed.

(** The URL count is ten times the number of indices at which [http://]
    or [https://] starts. *)
Lemma urlCount_spec t :
  urlCount t = js_mul (of_nat (url_occurrences t)) (of_nat 10).
Proof.
  unfold urlCount, String_match_g.
  rewrite <- (match_all_url (S (length t)) t) by lia.
  destruct (match_all (S (length t)) urlPattern t); reflexivity.
Qed.

(* ===================================================================== *)
(** ** The arithmetic of the score                                        *)
(* ===================================================================== *)

Lemma Qlt_bool_iff a b : Qlt_bool a b = true <-> (a < b)%Q.
Proof.
  unfold Qlt_bool. rewrite negb_true_iff. split.
  - intros H. apply Qnot_le_lt. intros Hle. apply Qle_bool_iff in Hle. congruence.
  - intros H. destruct (Qle_bool b a) eqn:E; [|reflexivity].
    apply Qle_bool_iff in E. exfalso. exact (Qlt_not_le _ _ H E).
Qed.

Lemma Math_min_Fin a b :
  Math_min (Fin a) (Fin b) = Fin (if Qle_bool a b then a else b).
Proof. unfold Math_min, js_le. destruct (Qle_bool a b); reflexivity. Qed.

Lemma Math_max_Fin a b :
  Math_max (Fin a) (Fin b) = Fin (if Qle_bool a b then b else a).
Proof. unfold Math_max, js_le. destruct (Qle_bool a b); reflexivity. Qed.

Lemma Qmin_if a b : ((if Qle_bool a b then a else b) == Qmin a b)%Q.
Proof.
  destruct (Qle_bool a b) eqn:E.
  - apply Qle_bool_iff in E. symmetry. apply Q.min_l, E.
  - symmetry. apply Q.min_r. apply Qlt_le_weak, Qnot_le_lt.
    intros H. apply Qle_bool_iff in H. congruence.
Qed.

Lemma inject_nat_nonneg n : (0 <= inject_Z (Z.of_nat n))%Q.
Proof. unfold Qle, inject_Z. simpl. lia. Qed.

Lemma Qplus_nonneg a b : (0 <= a)%Q -> (0 <= b)%Q -> (0 <= a + b)%Q.
Proof.
  intros Ha Hb. rewrite <- (Qplus_0_l 0). apply Qplus_le_compat; assumption.
Qed.

Lemma lengthScore_Fin t :
  lengthScore t =
  Fin (if Qle_bool (inject_Z (Z.of_nat (length t)) / 20) 5
       then inject_Z (Z.of_nat (length t)) / 20 else 5).
Proof. unfold lengthScore. apply Math_min_Fin. Qed.

Lemma str_le_A x : str_le (js "A") [x] = (65 <=? x).
Proof.
  change (js "A") with [65]. cbn [str_le].
  destruct (N.ltb_spec 65 x), (N.eqb_spec 65 x), (N.leb_spec 65 x);
    simpl; try reflexivity; lia.
Qed.

Lemma str_le_Z x : str_le [x] (js "Z") = (x <=? 90).
Proof.
  change (js "Z") with [90]. cbn [str_le].
  destruct (N.ltb_spec x 90), (N.eqb_spec x 90), (N.leb_spec x 90);
    simpl; try reflexivity; lia.
Qed.

(** The numerator of the capitals fraction counts the code units from 65
    to 90; the denominator is the length of the whole text. *)
Lemma capsPercentage_spec t :
  capsPercentage t = js_div (of_nat (ascii_capitals t)) (of_nat (length t)).
Proof.
  unfold capsPercentage, ascii_capitals, split_units. do 3 f_equal.
  induction t as [|x t IH]; [reflexivity|].
  cbn [map List.filter]. rewrite str_le_A, str_le_Z.
  destruct ((65 <=? x) && (x <=? 90)); cbn [length]; rewrite IH; reflexivity.
Qed.

Lemma caps_fraction_gt (c n : nat) :
  Qlt_bool (3 # 10) (inject_Z (Z.of_nat c) / inject_Z (Z.of_nat (S n))) =
  (3 * S n <? 10 * c)%nat.
Proof.
  assert (Hpos : (0 < inject_Z (Z.of_nat (S n)))%Q)
    by (unfold Qlt, inject_Z; simpl; lia).
  destruct (Nat.ltb_spec (3 * S n) (10 * c)) as [H|H].
  - apply Qlt_bool_iff. apply Qlt_shift_div_l; [exact Hpos|].
    unfold Qlt, Qmult, inject_Z. cbn [Qnum Qden]. lia.
  - unfold Qlt_bool. apply negb_false_iff, Qle_bool_iff.
    apply Qle_shift_div_r; [exact Hpos|].
    unfold Qle, Qmult, inject_Z. cbn [Qnum Qden]. lia.
Qed.

Lemma capsScore_spec t :
  capsScore t =
  of_nat (if (3 * length t <? 10 * ascii_capitals t)%nat then 10 else 0).
Proof.
  unfold capsScore. rewrite capsPercentage_spec.
  destruct t as [|x t]; [reflexivity|].
  set (c := ascii_capitals (x :: t)). cbn [length].
  assert (E : js_div (of_nat c) (of_nat (S (length t))) =
              Fin (inject_Z (Z.of_nat c) / inject_Z (Z.of_nat (S (length t))))).
  { unfold js_div, of_nat.
    assert (Hz : Qeq_bool (inject_Z (Z.of_nat (S (length t)))) 0 = false).
    { destruct (Qeq_bool _ 0) eqn:Hq; [|reflexivity].
      apply Qeq_bool_iff in Hq. unfold Qeq, inject_Z in Hq. simpl in Hq. lia. }
    rewrite Hz. reflexivity. }
  rewrite E. unfold js_gt, js_lt. rewrite caps_fraction_gt.
  destruct (3 * S (length t) <? 10 * c)%nat; reflexivity.
Qed.

(** The total is a finite number: the specified one, and not negative. *)
Lemma totalScore_Fin t :
  exists q, totalScore t = Fin q /\ (q == Spec.totalScore t)%Q /\ (0 <= q)%Q.
Proof.
  unfold totalScore. rewrite lengthScore_Fin, urlCount_spec, capsScore_spec.
  unfold of_nat. cbn [js_mul js_add]. eexists. split; [reflexivity|].
  split.
  - unfold Spec.totalScore, Spec.lengthScore, Spec.urlCount, Spec.capsScore,
      Spec.matchCount.
    rewrite Qmin_if, <- matchCount_spec.
    destruct (3 * length t <? 10 * ascii_capitals t)%nat; cbn [Z.of_nat]; ring.
  - rewrite Qmin_if.
    assert (H1 := inject_nat_nonneg (matchCount t)).
    assert (H2 := inject_nat_nonneg (url_occurrences t)).
    assert (H3 := inject_nat_nonneg (length t)).
    assert (H4 := inject_nat_nonneg
                    (if (3 * length t <? 10 * ascii_capitals t)%nat then 10 else 0)).
    assert (H5 : (0 <= Qmin (inject_Z (Z.of_nat (length t)) / 20) 5)%Q).
    { apply Q.min_glb; [|discriminate].
      apply Qle_shift_div_l; [reflexivity|]. rewrite Qmult_0_l. exact H3. }
    assert (H6 : (0 <= inject_Z (Z.of_nat 10))%Q) by discriminate.
    repeat apply Qplus_nonneg; try apply Qmult_le_0_compat; assumption.
Qed.

Lemma confidenceScore_Fin t :
  exists q, confidenceScore t = Fin q /\ (q == Spec.confidenceScore t)%Q /\
            (0 <= q)%Q /\ (q <= 100)%Q.
Proof.
  destruct (totalScore_Fin t) as (q & Hq & Hspec & Hpos).
  unfold confidenceScore. rewrite Hq. unfold of_nat. rewrite Math_min_Fin.
  eexists. split; [reflexivity|].
  change (inject_Z (Z.of_nat 100)) with 100%Q.
  split; [|split].
  - rewrite Qmin_if. unfold Spec.confidenceScore. rewrite Hspec. reflexivity.
  - destruct (Qle_bool q 100); [exact Hpos | discriminate].
  - destruct (Qle_bool q 100) eqn:E; [apply Qle_bool_iff, E | apply Qle_refl].
Qed.

(* ===================================================================== *)
(** ** The verdict of the rule-based classifier                           *)
(* ===================================================================== *)

Lemma rule_matches_lang t i :
  rule_matches t i = true <->
  exists p a b c, scamPatterns !! i = Some p /\ t = a ++ b ++ c /\ lang p b.
Proof.
  unfold rule_matches. destruct (scamPatterns !! i) as [p|] eqn:E.
  - assert (Hwf : wf p = true).
    { pose proof scamPatterns_wf as H. rewrite forallb_forall in H.
      apply H. apply list_elem_of_In. eapply list_elem_of_lookup_2, E. }
    rewrite (RegExp_test_spec p t Hwf). split.
    + intros (a & b & c & Hs & Hl). exists p, a, b, c. auto.
    + intros (p' & a & b & c & [= <-] & Hs & Hl). exists a, b, c. auto.
  - split; [discriminate|]. intros (p & a & b & c & Hp & _). discriminate.
Qed.

(** C1: the heuristic classifier scores by the specified algorithm.
    [matchCount] is the number of rules of [scamPatterns] that match
    somewhere in the text, each rule counted once; the total is
    10 * matchCount + min(length / 20, 5) + 10 * (occurrences of [http://]
    or [https://]) + capsScore; the confidence score is min(total, 100); and
    the verdict is scam exactly when the confidence score is at least 30. *)
Theorem heuristic_scoring (rt : Runtime) (t : jsstring) :
  matchCount t = Spec.matchCount t /\
  NoDup (matching_rules t) /\
  (forall i, In i (matching_rules t) <->
     exists p a b c, scamPatterns !! i = Some p /\ t = a ++ b ++ c /\ lang p b) /\
  num_eq (totalScore t) (Fin (Spec.totalScore t)) /\
  num_eq (confidenceScore t) (Fin (Spec.confidenceScore t)) /\
  isScam (performOfflineAnalysis rt t) = js_ge (confidenceScore t) (of_nat 30) /\
  isScam (performOfflineAnalysis rt t) = Spec.isScam t.
Proof.
  split; [apply matchCount_spec|].
  split; [apply matching_rules_NoDup|].
  split; [intros i; rewrite matching_rules_In; apply rule_matches_lang|].
  destruct (totalScore_Fin t) as (q & Hq & Hspec & _).
  destruct (confidenceScore_Fin t) as (c & Hc & Hcspec & _).
  split; [rewrite Hq; exact Hspec|].
  split; [rewrite Hc; exact Hcspec|].
  split; [reflexivity|].
  unfold performOfflineAnalysis, Spec.isScam. cbn [isScam].
  rewrite Hc. unfold js_ge, scamThreshold, of_nat, js_le.
  change (inject_Z (Z.of_nat 30)) with 30%Q.
  apply eq_true_iff_eq. rewrite !Qle_bool_iff, Hcspec. reflexivity.
Qed.

(** C2: the confidence that is returned is the confidence score for a scam
    verdict, and 100 minus the confidence score otherwise, so that the two
    then add up to 100. *)
Theorem asymmetric_confidence (rt : Runtime) (t : jsstring) :
  let r := performOfflineAnalysis rt t in
  match isScam r with
  | true => confidence r = confidenceScore t
  | false =>
      confidence r = js_sub (of_nat 100) (confidenceScore t) /\
      num_eq (js_add (confidence r) (confidenceScore t)) (of_nat 100)
  end.
Proof.
  cbv zeta. unfold performOfflineAnalysis. cbn [isScam confidence].
  destruct (js_ge (confidenceScore t) scamThreshold); [reflexivity|].
  split; [reflexivity|].
  destruct (confidenceScore_Fin t) as (c & -> & _).
  unfold of_nat, js_sub, js_neg, js_add, num_eq. ring.
Qed.

Lemma heuristic_confidence_range (rt : Runtime) (t : jsstring) :
  in_range 0 100 (confidence (performOfflineAnalysis rt t)).
Proof.
  unfold performOfflineAnalysis. cbn [confidence].
  destruct (confidenceScore_Fin t) as (c & -> & _ & Hpos & Hle).
  unfold js_ge, scamThreshold, of_nat, js_le.
  destruct (Qle_bool _ c); cbn [in_range]; [auto|].
  unfold js_sub, js_neg, js_add, in_range.
  change (inject_Z (Z.of_nat 100)) with 100%Q. split.
  - apply Qle_minus_iff in Hle. exact Hle.
  - rewrite <- (Qplus_0_r 100) at 2. apply Qplus_le_compat; [apply Qle_refl|].
    apply Qopp_le_compat in Hpos. exact Hpos.
Qed.

(** C7: the empty string is classified like any other text.  The capitals
    fraction is 0/0, which is NaN, and NaN > 0.3 is false, so [capsScore]
    is 0; no rule matches; the score is 0; the verdict is safe with
    confidence 100. *)
Theorem empty_text (rt : Runtime) :
  capsPercentage [] = NaN /\
  capsScore [] = of_nat 0 /\
  matchCount [] = 0%nat /\
  num_eq (totalScore []) (of_nat 0) /\
  num_eq (confidenceScore []) (of_nat 0) /\
  isScam (performOfflineAnalysis rt []) = false /\
  num_eq (confidence (performOfflineAnalysis rt [])) (of_nat 100) /\
  explanation (performOfflineAnalysis rt []) =
    js "Rule-based analysis found limited scam indicators (score: " ++
    toFixed rt (confidenceScore []) 1 ++
    js "). No common scam patterns were detected." ++
    js " Note: This analysis uses rule-based detection without AI assistance.".
Proof.
  do 7 (split; [vm_compute; reflexivity|]).
  unfold performOfflineAnalysis, safeExplanation.
  change (js_ge (confidenceScore []) scamThreshold) with false.
  change (matchCount []) with 0%nat. cbn [explanation Nat.ltb Nat.leb].
  rewrite <- !app_assoc. reflexivity.
Qed.

(** C10: the capitals fraction has the number of code units from [A] to
    [Z] as its numerator and the length of the whole text as its
    denominator; a text with no code unit in that range, however many
    capitals of other alphabets it holds, has [capsScore] 0. *)
Theorem caps_ascii_only (t : jsstring) :
  capsPercentage t = js_div (of_nat (ascii_capitals t)) (of_nat (length t)) /\
  (Forall (fun c => ~ (65 <= c <= 90)) t -> capsScore t = of_nat 0).
Proof.
  split; [apply capsPercentage_spec|].
  intros H. rewrite capsScore_spec.
  assert (E : ascii_capitals t = 0%nat).
  { unfold ascii_capitals. induction H as [|x t Hx Ht IH]; [reflexivity|].
    cbn [List.filter].
    destruct (N.leb_spec 65 x), (N.leb_spec x 90); cbn [andb]; try exact IH.
    exfalso. apply Hx. lia. }
  rewrite E, Nat.mul_0_r. reflexivity.
Qed.

(** Five capitals, none of them ASCII: [capsScore] is 0. *)
Lemma caps_ascii_only_witness :
  Forall (fun c => ~ (65 <= c <= 90)) [192; 201; 206; 213; 220] /\
  capsScore [192; 201; 206; 213; 220] = of_nat 0.
Proof.
  assert (H : Forall (fun c => ~ (65 <= c <= 90)) [192; 201; 206; 213; 220])
    by (repeat constructor; lia).
  split; [exact H|].
  exact (proj2 (caps_ascii_only [192; 201; 206; 213; 220]) H).
Defined.

(* ===================================================================== *)
(** ** The scenarios of the specification                                 *)
(* ===================================================================== *)

(** Scenario A: six rules match (link, verify, limited time, prize,
    punctuation run, capitals run), the text has 80 code units and one URL:
    60 + 4 + 10 = 74, a scam. *)
Example scenarioA_scam :
  matchedPatterns scenarioA = [0; 3; 4; 5; 11; 12]%nat /\
  url_occurrences scenarioA = 1%nat /\
  isScam (performOfflineAnalysis sample_runtime scenarioA) = true /\
  num_eq (confidence (performOfflineAnalysis sample_runtime scenarioA))
         (Fin 74).
Proof. vm_compute. repeat split. Qed.

(** Scenario B: nothing matches: safe, with confidence 100 - 45/20. *)
Example scenarioB_safe :
  matchedPatterns scenarioB = [] /\
  isScam (performOfflineAnalysis sample_runtime scenarioB) = false /\
  num_eq (confidence (performOfflineAnalysis sample_runtime scenarioB))
         (Fin (391 # 4)).
Proof. vm_compute. repeat split. Qed.

(** The threshold is inclusive. *)
Example threshold_inclusive :
  js_ge (Fin 30) scamThreshold = true /\ js_ge (Fin (2999 # 100)) scamThreshold = false.
Proof. split; reflexivity. Qed.

(** The [i] flag folds ASCII case only, [.] stops at a line terminator,
    and the URL count, without the flag, sees lower case only. *)
Example pattern_details :
  rule_matches (js "ACCOUNT will be Suspended") 3 = true /\
  rule_matches (js "account" ++ [10] ++ js "suspended") 3 = false /\
  rule_matches (js "HTTP://BIT.LY/abc") 0 = true /\
  url_occurrences (js "HTTP://BIT.LY/abc") = 0%nat /\
  rule_matches (js "pay 1,234,567 now") 13 = true /\
  rule_matches (js "call 12345678 now") 2 = false /\
  rule_matches (js "call 123456789 now") 2 = true.
Proof. vm_compute. repeat split. Qed.

(* ===================================================================== *)
(** ** The explanation of a scam verdict                                  *)
(* ===================================================================== *)

Lemma existsb_filter {A} (f g : A -> bool) l :
  existsb f (List.filter g l) = existsb (fun i => f i && g i) l.
Proof.
  induction l as [|x l IH]; [reflexivity|]. cbn [List.filter existsb].
  destruct (g x); cbn [existsb]; rewrite IH.
  - rewrite andb_true_r. reflexivity.
  - rewrite andb_false_r. reflexivity.
Qed.

Lemma url_positive t :
  js_gt (urlCount t) (of_nat 0) = (0 <? url_occurrences t)%nat.
Proof.
  rewrite urlCount_spec. unfold of_nat, js_mul, js_gt, js_lt.
  destruct (Nat.ltb_spec 0 (url_occurrences t)) as [H|H].
  - apply Qlt_bool_iff. unfold Qlt, Qmult, inject_Z. cbn [Qnum Qden]. lia.
  - unfold Qlt_bool. apply negb_false_iff, Qle_bool_iff.
    unfold Qle, Qmult, inject_Z. cbn [Qnum Qden]. lia.
Qed.

Lemma url_matches_length t :
  match String_match_g urlPattern t with
  | Some ms => match length ms with O => 0%nat | n => n end
  | None => 0%nat
  end = url_occurrences t.
Proof.
  unfold String_match_g. rewrite <- (match_all_url (S (length t)) t) by lia.
  destruct (match_all (S (length t)) urlPattern t); reflexivity.
Qed.

Lemma indicators_spec t : indicators t = categories t.
Proof.
  unfold indicators, categories.
  rewrite url_positive, url_matches_length, matchedPatterns_spec.
  unfold matching_rules. rewrite !existsb_filter.
  change (length scamPatterns) with 14%nat.
  generalize (rule_matches t). intros g.
  cbn [seq existsb Nat.eqb Nat.leb andb orb]. rewrite !orb_false_r.
  reflexivity.
Qed.

(** C9, as amended: for a text classified as scam the explanation gives
    the indicator count and the score, then, when at least one rule
    matched, the categories in canonical order (links, crypto terms,
    sensitive numbers, urgency group, formatting group, URL count if not
    zero), then the capitals sentence exactly when [capsScore] is
    positive, then the disclaimer. *)
Theorem scam_explanation (rt : Runtime) (t : jsstring) :
  isScam (performOfflineAnalysis rt t) = true ->
  explanation (performOfflineAnalysis rt t) = listed_explanation rt t.
Proof.
  unfold performOfflineAnalysis. cbn [isScam explanation]. intros ->.
  unfold scamExplanation, listed_explanation, scam_head, listing, caps_part.
  rewrite indicators_spec, matchedPatterns_spec.
  unfold Spec.matchCount. rewrite matchCount_spec.
  destruct (0 <? length (matching_rules t))%nat,
           (js_gt (capsScore t) (of_nat 0));
    repeat rewrite <- app_assoc; rewrite ?app_nil_r; reflexivity.
Qed.

Lemma scam_explanation_witness :
  isScam (performOfflineAnalysis sample_runtime scenarioA) = true /\
  explanation (performOfflineAnalysis sample_runtime scenarioA) =
  listed_explanation sample_runtime scenarioA.
Proof.
  split; [vm_compute; reflexivity|].
  apply (scam_explanation sample_runtime scenarioA). vm_compute. reflexivity.
Defined.

(** C9 as stated fails: three bare scheme prefixes make a scam verdict
    with no rule matching, and the explanation then has no list at all,
    though the URL count is 3. *)
Lemma url_count_not_listed :
  ~ (forall rt t,
       isScam (performOfflineAnalysis rt t) = true ->
       explanation (performOfflineAnalysis rt t) = stated_explanation rt t).
Proof.
  intros H. specialize (H sample_runtime bare_schemes).
  assert (E : isScam (performOfflineAnalysis sample_runtime bare_schemes) = true)
    by (vm_compute; reflexivity).
  specialize (H E). vm_compute in H. discriminate H.
Qed.

(* ===================================================================== *)
(** ** The remote path                                                    *)
(* ===================================================================== *)

Lemma validate_failure rt r e :
  validate rt r = inl e <-> remote_failure rt r e.
Proof.
  split.
  - destruct r as [e0|content]; cbn [validate].
    + intros [= ->]. constructor.
    + destruct (truthy content) as [text|] eqn:Et.
      * destruct content as [[|x text']|]; try discriminate.
        injection Et as <-.
        destruct (JSON_parse rt (x :: text')) as [msg|v] eqn:Ep.
        -- intros [= <-]. apply parse_failure. exact Ep.
        -- destruct v as [|b|n|s|items|fields].
           ++ cbn. intros [= <-]. apply null_response. exact Ep.
           ++ cbn. intros [= <-]. eapply mistyped_field; eauto; discriminate.
           ++ cbn. intros [= <-]. eapply mistyped_field; eauto; discriminate.
           ++ cbn. intros [= <-]. eapply mistyped_field; eauto; discriminate.
           ++ cbn. intros [= <-]. eapply mistyped_field; eauto; discriminate.
           ++ cbn [get_property].
              intros H.
              assert (He : e = Error "Invalid response format from OpenAI" /\
                           well_typed rt (JObj fields) = None).
              { unfold well_typed. cbn [get_property].
                destruct (assoc (js "isScam") fields) as [[]|];
                  try (injection H as <-; split; reflexivity).
                destruct (assoc (js "confidence") fields) as [[]|];
                  try (injection H as <-; split; reflexivity).
                destruct (assoc (js "explanation") fields) as [[]|];
                  try (injection H as <-; split; reflexivity).
                discriminate H. }
              destruct He as [-> Hw].
              eapply mistyped_field; eauto; discriminate.
      * intros [= <-]. apply empty_content. exact Et.
  - intros H. destruct H as [e|content Hc|x text msg Hp|x text v Hp Hn Hw|x text Hp];
      cbn [validate truthy].
    + reflexivity.
    + rewrite Hc. reflexivity.
    + rewrite Hp. reflexivity.
    + rewrite Hp. unfold well_typed in Hw.
      destruct v as [|b|n|s|items|fields]; try reflexivity; [congruence|].
      cbn [get_property] in *.
      destruct (assoc (js "isScam") fields) as [[]|]; try reflexivity.
      destruct (assoc (js "confidence") fields) as [[]|]; try reflexivity.
      destruct (assoc (js "explanation") fields) as [[]|]; try reflexivity.
      discriminate Hw.
    + rewrite Hp. reflexivity.
Qed.

Lemma clamp_range n : in_range 0 100 (clamp (number_of_json n)).
Proof.
  destruct n as [q|[|]]; [|cbn; split; discriminate..].
  unfold clamp, number_of_json, of_nat. rewrite Math_min_Fin, Math_max_Fin.
  change (inject_Z (Z.of_nat 100)) with 100%Q.
  change (inject_Z (Z.of_nat 0)) with 0%Q.
  destruct (Qle_bool 100 q) eqn:E1.
  - cbn. split; discriminate.
  - destruct (Qle_bool 0 q) eqn:E2; cbn [in_range].
    + split; [apply Qle_bool_iff, E2|].
      apply Qlt_le_weak, Qnot_le_lt. intros H. apply Qle_bool_iff in H. congruence.
    + split; [apply Qle_refl | discriminate].
Qed.

(** A response that passes the checks is returned with its confidence
    clamped. *)
Lemma validate_success rt r res :
  validate rt r = inr res ->
  exists b n s, res = mkResult b (clamp (number_of_json n)) s.
Proof.
  destruct r as [e|content]; cbn [validate]; [discriminate|].
  destruct (truthy content) as [text|]; [|discriminate].
  destruct (JSON_parse rt text) as [msg|v]; [discriminate|].
  destruct (get_property rt v "isScam") as [e|[[]|]]; try discriminate.
  destruct (get_property rt v "confidence") as [e|[[]|]]; try discriminate.
  destruct (get_property rt v "explanation") as [e|[[]|]]; try discriminate.
  intros [= <-]. eauto.
Qed.

(** Every call returns the answer of the rule-based classifier for its own
    text, or the validated remote response. *)
Lemma checkMessage_result rt text r q this :
  out_result (checkMessage rt text r q this) = performOfflineAnalysis rt text \/
  validate rt r = inr (out_result (checkMessage rt text r q this)).
Proof.
  unfold checkMessage. destruct q; [left; reflexivity|].
  destruct (isOfflineMode this || _); [left; reflexivity|].
  destruct (validate rt r) as [[[msg|]]|res]; [| |right; reflexivity].
  - destruct (quotaSignature msg); left; reflexivity.
  - left; reflexivity.
Qed.

Lemma run_results_Forall rt (P : jsstring * AnalysisResult -> Prop) :
  (forall op w a, (step rt op w).2 = Some a -> P (text_of op, a)) ->
  forall ops w, Forall P (run rt ops w).2.
Proof.
  intros Hstep ops. induction ops as [|op ops IH]; intros w; cbn [run].
  - constructor.
  - destruct (step rt op w) as [w1 res] eqn:Es.
    specialize (IH w1). destruct (run rt ops w1) as [w2 rs]. cbn [snd] in *.
    destruct res as [a|]; [|exact IH].
    constructor; [|exact IH]. apply (Hstep op w). rewrite Es. reflexivity.
Qed.

Lemma call_checkMessage_result rt i text r w a :
  (call_checkMessage rt i text r w).2 = Some a ->
  exists q this, a = out_result (checkMessage rt text r q this).
Proof.
  unfold call_checkMessage. destruct (heap w !! i) as [this|]; [|discriminate].
  cbn [snd]. intros [= <-]. eauto.
Qed.

Lemma step_result rt op w a :
  (step rt op w).2 = Some a ->
  exists r q this, a = out_result (checkMessage rt (text_of op) r q this).
Proof.
  destruct op; cbn [step snd text_of]; try discriminate.
  - intros H. apply call_checkMessage_result in H as (q & this0 & ->). eauto.
  - intros H. apply call_checkMessage_result in H as (q & this0 & ->). eauto.
Qed.

(** C3: the confidence of every result of [checkMessage] lies in [0, 100],
    whether it is the remote response after the clamp or the answer of the
    rule-based classifier; and so for every result of every sequence of
    operations. *)
Theorem confidence_in_range (rt : Runtime) (text : jsstring) (r : reply)
    (q : bool) (this : ScamChecker) :
  in_range 0 100 (confidence (out_result (checkMessage rt text r q this))) /\
  (forall n, in_range 0 100 (clamp (number_of_json n))) /\
  (forall ops w,
     Forall (fun p => in_range 0 100 (confidence p.2)) (run rt ops w).2).
Proof.
  assert (H : forall text r q this,
             in_range 0 100 (confidence (out_result (checkMessage rt text r q this)))).
  { clear. intros text r q this.
    destruct (checkMessage_result rt text r q this) as [-> | Hv].
    - apply heuristic_confidence_range.
    - apply validate_success in Hv as (b & n & s & ->). apply clamp_range. }
  split; [apply H|]. split; [apply clamp_range|].
  apply run_results_Forall. intros op w a Ha.
  apply step_result in Ha as (r0 & q0 & this0 & ->). apply H.
Qed.

(* ===================================================================== *)
(** ** Falling back and the sticky flag                                   *)
(* ===================================================================== *)

Lemma online_sends rt text r q this :
  out_request (checkMessage rt text r q this) =
  if online q this then Some (request_of this text) else None.
Proof.
  unfold checkMessage, online. destruct q; [reflexivity|]. cbn [negb andb].
  destruct (isOfflineMode this); [reflexivity|]. cbn [orb negb andb].
  destruct (bool_decide (is_Some (openai this))); cbn [negb]; [|reflexivity].
  destruct (validate rt r) as [[[msg|]]|res]; try reflexivity.
  destruct (quotaSignature msg); reflexivity.
Qed.

Lemma checkMessage_failure rt text r q this e :
  validate rt r = inl e ->
  checkMessage rt text r q this =
  if online q this then
    if quota_error e
    then mkOutcome (performOfflineAnalysis rt text) true
           (mkChecker (openai this) (config this) true)
           (Some (request_of this text))
    else mkOutcome (performOfflineAnalysis rt text) q this
           (Some (request_of this text))
  else mkOutcome (performOfflineAnalysis rt text) q this None.
Proof.
  intros Hv. unfold checkMessage, online. destruct q; [reflexivity|].
  cbn [negb andb]. destruct (isOfflineMode this); [reflexivity|].
  cbn [orb negb andb].
  destruct (bool_decide (is_Some (openai this))); cbn [negb]; [|reflexivity].
  rewrite Hv. destruct e as [[msg|]]; cbn [quota_error]; [|reflexivity].
  destruct (quotaSignature msg); reflexivity.
Qed.

(** C5: a remote failure of any class (transport error, empty content,
    JSON parse failure, mistyped field) never reaches the caller: the call
    returns the answer of the rule-based classifier for the same text.
    When the error carries no quota signature, the static flag and the
    instance are left as they were, so a call that reached the remote
    service is followed by one that reaches it again.  The errors the code
    itself raises, for an empty content and for a mistyped field, carry no
    quota signature. *)
Theorem remote_failure_falls_back (rt : Runtime) (text : jsstring) (r : reply)
    (q : bool) (this : ScamChecker) (e : thrown) :
  remote_failure rt r e ->
  let o := checkMessage rt text r q this in
  out_result o = performOfflineAnalysis rt text /\
  (quota_error e = false ->
     out_quotaExceeded o = q /\ out_this o = this /\
     forall text' r',
       out_request (checkMessage rt text' r' (out_quotaExceeded o) (out_this o)) =
       if online q this then Some (request_of this text') else None) /\
  quota_error (Error "Empty response from OpenAI") = false /\
  quota_error (Error "Invalid response format from OpenAI") = false.
Proof.
  intros Hf. apply validate_failure in Hf. cbv zeta.
  rewrite (checkMessage_failure rt text r q this e Hf).
  split; [|split; [|split; reflexivity]].
  - destruct (online q this); [destruct (quota_error e)|]; reflexivity.
  - intros ->.
    assert (E : (if online q this
                 then mkOutcome (performOfflineAnalysis rt text) q this
                        (Some (request_of this text))
                 else mkOutcome (performOfflineAnalysis rt text) q this None) =
                mkOutcome (performOfflineAnalysis rt text) q this
                  (if online q this then Some (request_of this text) else None))
      by (destruct (online q this); reflexivity).
    rewrite E. cbn [out_quotaExceeded out_this].
    split; [reflexivity|]. split; [reflexivity|].
    intros text' r'. apply online_sends.
Qed.

Lemma remote_failure_falls_back_witness :
  remote_failure sample_runtime not_json
    (Thrown (Some (js "Unexpected token in JSON at position 0"))) /\
  let o := checkMessage sample_runtime scenarioB not_json false online_checker in
  out_result o = performOfflineAnalysis sample_runtime scenarioB /\
  out_quotaExceeded o = false /\ out_this o = online_checker /\
  out_request (checkMessage sample_runtime scenarioA quota_reply
                 (out_quotaExceeded o) (out_this o)) =
  Some (request_of online_checker scenarioA).
Proof.
  assert (H : remote_failure sample_runtime not_json
                (Thrown (Some (js "Unexpected token in JSON at position 0"))))
    by (apply (parse_failure sample_runtime 110 (js "ot json")); reflexivity).
  split; [exact H|].
  destruct (remote_failure_falls_back sample_runtime scenarioB not_json
              false online_checker _ H) as (R1 & R2 & _).
  destruct (R2 eq_refl) as (Q1 & Q2 & Q3).
  split; [exact R1|]. split; [exact Q1|]. split; [exact Q2|].
  exact (Q3 scenarioA quota_reply).
Defined.

(** With the static flag set, an operation other than the reset keeps it
    set, sends nothing, and answers a call by the rule-based classifier. *)
Lemma call_checkMessage_quota rt i text r w :
  quotaExceeded w = true ->
  let s := call_checkMessage rt i text r w in
  quotaExceeded s.1 = true /\ requests s.1 = requests w /\
  length (heap s.1) = length (heap w) /\
  forall a, s.2 = Some a -> a = performOfflineAnalysis rt text.
Proof.
  intros Hq. unfold call_checkMessage.
  destruct (heap w !! i) as [this|]; cbn [fst snd].
  - unfold checkMessage. rewrite Hq.
    cbn [out_quotaExceeded out_this out_request out_result quotaExceeded
         requests heap option_list].
    rewrite app_nil_r, length_insert.
    repeat split; auto. intros a [= <-]. reflexivity.
  - repeat split; auto. discriminate.
Qed.

Lemma step_quota rt op w :
  quotaExceeded w = true -> op <> ResetQuotaStatus ->
  quotaExceeded (step rt op w).1 = true /\
  requests (step rt op w).1 = requests w /\
  forall a, (step rt op w).2 = Some a -> a = performOfflineAnalysis rt (text_of op).
Proof.
  intros Hq Hop. destruct op; cbn [step text_of fst snd].
  - cbn. repeat split; auto. discriminate.
  - unfold update_instance. destruct (heap w !! this); cbn;
      repeat split; auto; discriminate.
  - unfold update_instance. destruct (heap w !! this); cbn;
      repeat split; auto; discriminate.
  - destruct (call_checkMessage_quota rt this messageText r w Hq) as (H1 & H2 & _ & H4).
    auto.
  - congruence.
  - destruct (call_checkMessage_quota rt (length (heap w)) messageText r
                (new_instance rt (mkConfig key None None (Some offlineMode)) w) Hq)
      as (H1 & H2 & _ & H4).
    auto.
Qed.

Lemma run_quota rt ops : forall w,
  quotaExceeded w = true -> Forall (fun op => op <> ResetQuotaStatus) ops ->
  quotaExceeded (run rt ops w).1 = true /\
  requests (run rt ops w).1 = requests w /\
  Forall (fun p => p.2 = performOfflineAnalysis rt p.1) (run rt ops w).2.
Proof.
  induction ops as [|op ops IH]; intros w Hq Hops; cbn [run].
  - cbn. auto.
  - inversion Hops as [|? ? Hop Hrest]; subst.
    destruct (step_quota rt op w Hq Hop) as (H1 & H2 & H3).
    destruct (step rt op w) as [w1 res]. cbn [fst snd] in *.
    destruct (IH w1 H1 Hrest) as (I1 & I2 & I3).
    destruct (run rt ops w1) as [w2 rs]. cbn [fst snd] in *.
    split; [exact I1|]. split; [congruence|].
    destruct res as [a|]; [|exact I3].
    constructor; [|exact I3]. cbn [fst snd]. apply H3. reflexivity.
Qed.

(** C4: when a call that reached the remote service fails with an error
    whose message has a quota signature, the static flag is set; whatever
    operations follow, on whatever instances, as long as none is
    [resetQuotaStatus], the flag stays set, no further request is sent, and
    every call is answered by the rule-based classifier; [resetQuotaStatus]
    clears the flag. *)
Theorem sticky_quota (rt : Runtime) (w : World) (i : nat) (this : ScamChecker)
    (text : jsstring) (r : reply) (e : thrown) (ops : list Op) :
  heap w !! i = Some this ->
  online (quotaExceeded w) this = true ->
  remote_failure rt r e ->
  quota_error e = true ->
  Forall (fun op => op <> ResetQuotaStatus) ops ->
  let s := step rt (CheckMessage i text r) w in
  let s' := run rt ops s.1 in
  s.2 = Some (performOfflineAnalysis rt text) /\
  quotaExceeded s.1 = true /\
  quotaExceeded s'.1 = true /\
  requests s'.1 = requests s.1 /\
  Forall (fun p => p.2 = performOfflineAnalysis rt p.1) s'.2 /\
  quotaExceeded (step rt ResetQuotaStatus s'.1).1 = false.
Proof.
  intros Hi Hon Hf Hqe Hops. cbv zeta.
  apply validate_failure in Hf.
  assert (Hs : quotaExceeded (step rt (CheckMessage i text r) w).1 = true /\
               (step rt (CheckMessage i text r) w).2 =
               Some (performOfflineAnalysis rt text)).
  { cbn [step]. unfold call_checkMessage. rewrite Hi.
    rewrite (checkMessage_failure rt text r _ this e Hf), Hon, Hqe.
    split; reflexivity. }
  destruct Hs as [Hs1 Hs2].
  destruct (run_quota rt ops _ Hs1 Hops) as (R1 & R2 & R3).
  repeat split; auto.
Qed.

Lemma sticky_quota_witness :
  let w := (step sample_runtime (New (mkConfig (Some (js "sk-test")) None None None))
              (step sample_runtime (New (mkConfig None None None None))
                 sample_world).1).1 in
  let s := step sample_runtime (CheckMessage 1 scenarioA quota_reply) w in
  let s' := run sample_runtime
              [CheckMessage 0 scenarioB not_json;
               Standalone scenarioA (Some (js "sk-other")) false not_json;
               SetApiKey 1 (js "sk-new");
               CheckMessage 1 scenarioB (Content (Some sample_content))] s.1 in
  s.2 = Some (performOfflineAnalysis sample_runtime scenarioA) /\
  quotaExceeded s.1 = true /\
  quotaExceeded s'.1 = true /\
  requests s'.1 = requests s.1 /\
  Forall (fun p => p.2 = performOfflineAnalysis sample_runtime p.1) s'.2 /\
  quotaExceeded (step sample_runtime ResetQuotaStatus s'.1).1 = false.
Proof.
  apply (sticky_quota sample_runtime _ 1 online_checker scenarioA quota_reply
           (Error "429 You exceeded your current quota")).
  - reflexivity.
  - reflexivity.
  - apply transport_error.
  - reflexivity.
  - repeat constructor; discriminate.
Defined.

(* ===================================================================== *)
(** ** Forced offline mode and reconfiguration                            *)
(* ===================================================================== *)

Lemma constructor_forced rt e c :
  cfg_forceOfflineMode c = Some true ->
  openai (constructor rt e c) = None /\ isOfflineMode (constructor rt e c) = true.
Proof. intros H. unfold constructor. cbn. rewrite H. cbn. auto. Qed.

Lemma checkMessage_offline rt text r q this :
  isOfflineMode this = true ->
  checkMessage rt text r q this =
  mkOutcome (performOfflineAnalysis rt text) q this None.
Proof.
  intros H. unfold checkMessage. rewrite H. destruct q; reflexivity.
Qed.


Lemma call_checkMessage_offline rt i text r w x :
  heap w !! i = Some x -> isOfflineMode x = true ->
  call_checkMessage rt i text r w = (w, Some (performOfflineAnalysis rt text)).
Proof.
  intros Hi Hoff. unfold call_checkMessage. rewrite Hi.
  rewrite (checkMessage_offline rt text r _ x Hoff).
  cbn [out_quotaExceeded out_this out_request out_result option_list].
  rewrite app_nil_r, list_insert_id by exact Hi.
  destruct w; reflexivity.
Qed.






(** C8: [setApiKey] and [setOfflineMode] leave the static flag, the
    requests and the other instances as they are.  [setApiKey] stores the
    key, clears the offline flag and runs the initialisation again, which
    sets the flag anew exactly when the key is empty or no client can be
    made.  [setOfflineMode] sets the offline flag to its argument, and runs
    the initialisation when the argument is [false] and there is no
    client. *)
Theorem reconfiguration_frame (rt : Runtime) (w : World) (i j : nat)
    (this : ScamChecker) (key : jsstring) (enabled : bool) :
  heap w !! i = Some this ->
  i <> j ->
  let w1 := (step rt (SetApiKey i key) w).1 in
  let w2 := (step rt (SetOfflineMode i enabled) w).1 in
  let cfg := mkRequired key (model (config this)) (temperature (config this))
               (forceOfflineMode (config this)) in
  (quotaExceeded w1 = quotaExceeded w /\ quotaExceeded w2 = quotaExceeded w) /\
  (requests w1 = requests w /\ requests w2 = requests w) /\
  (heap w1 !! j = heap w !! j /\ heap w2 !! j = heap w !! j) /\
  heap w1 !! i = Some (setApiKey rt key this) /\
  heap w2 !! i = Some (setOfflineMode rt enabled this) /\
  setApiKey rt key this = initOpenAI rt (mkChecker (openai this) cfg false) /\
  config (setApiKey rt key this) = cfg /\
  isOfflineMode (setApiKey rt key this) =
    match key, new_OpenAI rt key with
    | _ :: _, Some _ => false
    | _, _ => true
    end /\
  openai (setApiKey rt key this) =
    match key with [] => openai this | _ => new_OpenAI rt key end /\
  setOfflineMode rt enabled this =
    match enabled, openai this with
    | false, None => initOpenAI rt (mkChecker None (config this) false)
    | _, _ => mkChecker (openai this) (config this) enabled
    end.
Proof.
  intros Hi Hij. cbv zeta. cbn [step fst]. unfold update_instance. rewrite Hi.
  cbn [quotaExceeded requests heap].
  assert (Hlt : (i < length (heap w))%nat) by (eapply lookup_lt_Some; eauto).
  repeat split.
  - apply list_lookup_insert_ne, Hij.
  - apply list_lookup_insert_ne, Hij.
  - apply list_lookup_insert_eq, Hlt.
  - apply list_lookup_insert_eq, Hlt.
  - unfold setApiKey, initOpenAI. cbn.
    destruct key; [reflexivity|]. destruct (new_OpenAI rt _); reflexivity.
  - unfold setApiKey, initOpenAI. cbn.
    destruct key; [reflexivity|]. destruct (new_OpenAI rt _); reflexivity.
  - unfold setApiKey, initOpenAI. cbn.
    destruct key; [reflexivity|]. destruct (new_OpenAI rt _); reflexivity.
  - unfold setOfflineMode. cbn [openai].
    destruct enabled, (openai this) as [client|]; reflexivity.
Qed.

Lemma reconfiguration_frame_witness :
  let w := (step sample_runtime (CheckMessage 1 scenarioA quota_reply)
              (step sample_runtime (New (mkConfig (Some (js "sk-test")) None None None))
                 (step sample_runtime (New (mkConfig None None None (Some true)))
                    sample_world).1).1).1 in
  quotaExceeded w = true /\
  quotaExceeded (step sample_runtime (SetApiKey 1 (js "sk-new")) w).1 = true /\
  quotaExceeded (step sample_runtime (SetOfflineMode 1 false) w).1 = true.
Proof.
  cbv zeta. split; [reflexivity|].
  pose proof (reconfiguration_frame sample_runtime
                (step sample_runtime (CheckMessage 1 scenarioA quota_reply)
                   (step sample_runtime (New (mkConfig (Some (js "sk-test")) None None None))
                      (step sample_runtime (New (mkConfig None None None (Some true)))
                         sample_world).1).1).1
                1 0 (mkChecker (Some (mkOpenAI (js "sk-test")))
                       (mkRequired (js "sk-test") (js "gpt-3.5-turbo") (Fin (3 # 10)) false)
                       true)
                (js "sk-new") false eq_refl ltac:(discriminate)) as H.
  cbv zeta in H. destruct H as ((H1 & H2) & _).
  split; [exact H1 | exact H2].
Defined.

(* ===================================================================== *)
(** ** The credential and the construction of an instance                 *)
(* ===================================================================== *)

Lemma truthy_Some o s : truthy o = Some s <-> o = Some s /\ s <> [].
Proof.
  destruct o as [[|x t]|]; cbn; split.
  - discriminate.
  - intros [[= <-] H]. congruence.
  - intros [= <-]. split; [reflexivity | discriminate].
  - intros [[= <-] _]. reflexivity.
  - discriminate.
  - intros [H _]. discriminate.
Qed.

(** [getEnvironmentApiKey] never answers the empty string: it answers a
    key that is not empty, or [null]. *)
Theorem environment_key_not_empty (e : Env) (key : jsstring) :
  getEnvironmentApiKey e = Some key -> key <> [].
Proof.
  unfold getEnvironmentApiKey.
  destruct (env_window e) as [w|], (env_process e) as [[pub node]|];
    try destruct (truthy w) as [k|] eqn:Ew;
    intros H; try discriminate;
    try (injection H as <-; apply truthy_Some in Ew; tauto);
    apply truthy_Some in H; tauto.
Qed.

Lemma environment_key_not_empty_witness :
  getEnvironmentApiKey sample_env = Some (js "sk-env") /\ js "sk-env" <> [].
Proof.
  split; [reflexivity|].
  apply (environment_key_not_empty sample_env (js "sk-env")). reflexivity.
Defined.

(** Where there is a [window], [OPENAI_API_KEY] is never read: the answer
    is the key of the window, else [NEXT_PUBLIC_OPENAI_API_KEY], whatever
    the server-side variable holds.  Without a [window] the answer is
    [OPENAI_API_KEY] alone. *)
Theorem browser_ignores_server_key (w pub k1 k2 : option jsstring) :
  getEnvironmentApiKey (mkEnv (Some w) (Some (pub, k1))) =
  getEnvironmentApiKey (mkEnv (Some w) (Some (pub, k2))) /\
  getEnvironmentApiKey (mkEnv (Some w) (Some (pub, k1))) =
    match truthy w with Some key => Some key | None => truthy pub end /\
  getEnvironmentApiKey (mkEnv None (Some (pub, k1))) = truthy k1.
Proof.
  unfold getEnvironmentApiKey. cbn.
  destruct (truthy w); repeat split; reflexivity.
Qed.

Lemma constructor_config rt e c :
  config (constructor rt e c) =
  mkRequired (resolveApiKey e c)
    (default (js "gpt-3.5-turbo") (truthy (cfg_model c)))
    (default (Fin (3 # 10)) (cfg_temperature c))
    (default false (cfg_forceOfflineMode c)).
Proof.
  unfold constructor, resolveApiKey, initOpenAI. cbn.
  destruct (default false (cfg_forceOfflineMode c)); [reflexivity|].
  destruct (match truthy (cfg_apiKey c) with
            | Some key => key
            | None => default [] (getEnvironmentApiKey e)
            end) as [|x k]; [reflexivity|].
  destruct (new_OpenAI rt (x :: k)); reflexivity.
Qed.

(** A new instance reaches the remote service exactly when it is not
    forced offline, a key that is not empty is found (the explicit one
    before the one of the environment), and the client can be made. *)
Theorem constructor_online (rt : Runtime) (e : Env) (c : ScamCheckerConfig) :
  online false (constructor rt e c) =
  negb (default false (cfg_forceOfflineMode c)) &&
  match resolveApiKey e c with
  | [] => false
  | key => bool_decide (is_Some (new_OpenAI rt key))
  end.
Proof.
  unfold online, constructor, resolveApiKey, initOpenAI. cbn.
  destruct (default false (cfg_forceOfflineMode c)); [reflexivity|].
  destruct (match truthy (cfg_apiKey c) with
            | Some key => key
            | None => default [] (getEnvironmentApiKey e)
            end) as [|x k]; [reflexivity|].
  destruct (new_OpenAI rt (x :: k)); reflexivity.
Qed.

(* ===================================================================== *)
(** ** What every instance keeps                                          *)
(* ===================================================================== *)

Lemma initOpenAI_consistent rt this :
  consistent this -> consistent (initOpenAI rt this).
Proof.
  unfold consistent, initOpenAI. intros H.
  destruct (apiKey (config this)); [reflexivity|].
  destruct (new_OpenAI rt _); cbn; [discriminate | reflexivity].
Qed.

Lemma constructor_consistent rt e c : consistent (constructor rt e c).
Proof.
  unfold constructor.
  destruct (forceOfflineMode _); [intros _; reflexivity|].
  unfold consistent, initOpenAI. cbn [apiKey config openai isOfflineMode].
  destruct (match truthy (cfg_apiKey c) with
            | Some key => key
            | None => default [] (getEnvironmentApiKey e)
            end); [reflexivity|].
  destruct (new_OpenAI rt _); cbn; [discriminate | reflexivity].
Qed.

Lemma setApiKey_consistent rt key this : consistent (setApiKey rt key this).
Proof.
  unfold setApiKey, consistent, initOpenAI. cbn.
  destruct key; [reflexivity|].
  destruct (new_OpenAI rt _); cbn; [discriminate | reflexivity].
Qed.

Lemma setOfflineMode_consistent rt enabled this :
  consistent this -> consistent (setOfflineMode rt enabled this).
Proof.
  intros H. unfold setOfflineMode. cbn [openai].
  destruct enabled; cbn [negb andb]; [intros _; reflexivity|].
  destruct (openai this) as [cl|] eqn:E; cbn.
  - unfold consistent. cbn. congruence.
  - unfold consistent, initOpenAI. cbn.
    destruct (apiKey (config this)); [reflexivity|].
    destruct (new_OpenAI rt _); cbn; [discriminate | reflexivity].
Qed.

Lemma checkMessage_consistent rt text r q this :
  consistent this -> consistent (out_this (checkMessage rt text r q this)).
Proof.
  intros H. unfold checkMessage. destruct q; [exact H|].
  destruct (isOfflineMode this || _); [exact H|].
  destruct (validate rt r) as [[[msg|]]|res]; try exact H.
  destruct (quotaSignature msg); [|exact H]. intros _. reflexivity.
Qed.

Lemma Forall_insert_instance (P : ScamChecker -> Prop) l i (x : ScamChecker) :
  Forall P l -> P x -> Forall P (<[i := x]> l).
Proof.
  intros Hl Hx. revert i. induction Hl as [|y l Hy Hl IH]; intros i.
  - constructor.
  - destruct i; cbn; constructor; auto.
Qed.

Lemma call_checkMessage_consistent rt i text r w :
  Forall consistent (heap w) ->
  Forall consistent (heap (call_checkMessage rt i text r w).1).
Proof.
  intros H. unfold call_checkMessage.
  destruct (heap w !! i) as [this|] eqn:E; cbn [fst heap]; [|exact H].
  apply Forall_insert_instance; [exact H|].
  apply checkMessage_consistent.
  rewrite Forall_forall in H. apply H. eapply list_elem_of_lookup_2, E.
Qed.

Lemma step_consistent rt op w :
  Forall consistent (heap w) -> Forall consistent (heap (step rt op w).1).
Proof.
  intros H. destruct op; cbn [step fst].
  - cbn. apply Forall_app. split; [exact H|].
    constructor; [apply constructor_consistent | constructor].
  - unfold update_instance. destruct (heap w !! this) as [x|] eqn:E; [|exact H].
    cbn. apply Forall_insert_instance; [exact H | apply setApiKey_consistent].
  - unfold update_instance. destruct (heap w !! this) as [x|] eqn:E; [|exact H].
    cbn. apply Forall_insert_instance; [exact H|].
    apply setOfflineMode_consistent.
    rewrite Forall_forall in H. apply H. eapply list_elem_of_lookup_2, E.
  - apply call_checkMessage_consistent, H.
  - exact H.
  - apply call_checkMessage_consistent. cbn. apply Forall_app. split; [exact H|].
    constructor; [apply constructor_consistent | constructor].
Qed.

(** Every operation keeps this: an instance without a client has its
    offline flag set.  So for the instances of a program the test
    [!this.openai] of [checkMessage] never decides: a call reaches the
    remote service exactly when both flags are clear. *)
Theorem no_client_means_offline (rt : Runtime) (ops : list Op) (w : World) :
  Forall consistent (heap w) ->
  Forall consistent (heap (run rt ops w).1) /\
  Forall (fun this => forall q, online q this = negb q && negb (isOfflineMode this))
         (heap (run rt ops w).1).
Proof.
  intros H.
  assert (Hc : Forall consistent (heap (run rt ops w).1)).
  { revert w H. induction ops as [|op ops IH]; intros w H; cbn [run]; [exact H|].
    pose proof (step_consistent rt op w H) as H1.
    destruct (step rt op w) as [w1 res]. cbn [fst] in H1.
    specialize (IH w1 H1). destruct (run rt ops w1) as [w2 rs]. exact IH. }
  split; [exact Hc|].
  eapply Forall_impl; [exact Hc|]. intros this Hthis q. unfold online.
  destruct (openai this) as [cl|] eqn:E.
  - rewrite bool_decide_eq_true_2 by eauto. rewrite andb_true_r. reflexivity.
  - rewrite (Hthis E). cbn. rewrite !andb_false_r. reflexivity.
Qed.

Lemma no_client_means_offline_witness :
  Forall consistent
    (heap (run sample_runtime
             [New (mkConfig None None None (Some true));
              New (mkConfig (Some (js "sk-test")) None None None);
              CheckMessage 1 scenarioA quota_reply;
              SetApiKey 0 []; SetOfflineMode 0 false] sample_world).1).
Proof.
  apply (no_client_means_offline sample_runtime). constructor.
Defined.

Lemma same_settings_refl x : same_settings x x.
Proof. repeat split. Qed.

Lemma same_settings_trans x y z :
  same_settings x y -> same_settings y z -> same_settings x z.
Proof. unfold same_settings. intros (A & B & C) (D & E & F). repeat split; congruence. Qed.

Lemma initOpenAI_config rt this : config (initOpenAI rt this) = config this.
Proof.
  unfold initOpenAI. destruct (apiKey (config this)); [reflexivity|].
  destruct (new_OpenAI rt _); reflexivity.
Qed.

Lemma setApiKey_settings rt key this : same_settings this (setApiKey rt key this).
Proof. unfold same_settings, setApiKey. rewrite initOpenAI_config. cbn. auto. Qed.

Lemma setOfflineMode_config rt enabled this :
  config (setOfflineMode rt enabled this) = config this.
Proof.
  unfold setOfflineMode. destruct (negb enabled && _); [|reflexivity].
  rewrite initOpenAI_config. reflexivity.
Qed.

Lemma checkMessage_config rt text r q this :
  config (out_this (checkMessage rt text r q this)) = config this.
Proof.
  unfold checkMessage. destruct q; [reflexivity|].
  destruct (isOfflineMode this || _); [reflexivity|].
  destruct (validate rt r) as [[[msg|]]|res]; try reflexivity.
  destruct (quotaSignature msg); reflexivity.
Qed.

Lemma call_checkMessage_settings rt j text r w i x :
  heap w !! i = Some x ->
  exists y, heap (call_checkMessage rt j text r w).1 !! i = Some y /\ same_settings x y.
Proof.
  intros Hi. unfold call_checkMessage.
  destruct (heap w !! j) as [z|] eqn:Ej; cbn [fst heap].
  - destruct (decide (j = i)) as [->|Hne].
    + rewrite list_lookup_insert_eq by (eapply lookup_lt_Some; eauto).
      eexists. split; [reflexivity|]. assert (z = x) as -> by congruence.
      unfold same_settings. rewrite checkMessage_config. auto.
    + rewrite list_lookup_insert_ne by auto. eauto using same_settings_refl.
  - eauto using same_settings_refl.
Qed.

Lemma update_instance_settings j f w i x :
  (forall z, same_settings z (f z)) ->
  heap w !! i = Some x ->
  exists y, heap (update_instance j f w) !! i = Some y /\ same_settings x y.
Proof.
  intros Hf Hi. unfold update_instance.
  destruct (heap w !! j) as [z|] eqn:Ej; cbn [heap].
  - destruct (decide (j = i)) as [->|Hne].
    + rewrite list_lookup_insert_eq by (eapply lookup_lt_Some; eauto).
      eexists. split; [reflexivity|]. assert (z = x) as -> by congruence. apply Hf.
    + rewrite list_lookup_insert_ne by auto. eauto using same_settings_refl.
  - eauto using same_settings_refl.
Qed.

Lemma step_settings rt op w i x :
  heap w !! i = Some x ->
  exists y, heap (step rt op w).1 !! i = Some y /\ same_settings x y.
Proof.
  intros Hi. destruct op; cbn [step fst].
  - exists x. split; [|apply same_settings_refl].
    cbn. apply lookup_app_l_Some, Hi.
  - apply update_instance_settings; [|exact Hi]. intros z. apply setApiKey_settings.
  - apply update_instance_settings; [|exact Hi]. intros z.
    unfold same_settings. rewrite setOfflineMode_config. auto.
  - apply call_checkMessage_settings, Hi.
  - exists x. split; [exact Hi | apply same_settings_refl].
  - apply call_checkMessage_settings. cbn. apply lookup_app_l_Some, Hi.
Qed.

(** No operation removes an instance or changes its model, its temperature
    or its [forceOfflineMode]: they are what the constructor made them, so
    every request of an instance carries the model and the temperature it
    was constructed with. *)
Theorem settings_are_fixed (rt : Runtime) (ops : list Op) (w : World) (i : nat)
    (x : ScamChecker) :
  heap w !! i = Some x ->
  exists y, heap (run rt ops w).1 !! i = Some y /\ same_settings x y /\
            forall text, req_model (request_of y text) = model (config x) /\
                         req_temperature (request_of y text) = temperature (config x).
Proof.
  intros Hi.
  assert (H : exists y, heap (run rt ops w).1 !! i = Some y /\ same_settings x y).
  { revert w x Hi. induction ops as [|op ops IH]; intros w x Hi; cbn [run].
    - exists x. split; [exact Hi | apply same_settings_refl].
    - destruct (step_settings rt op w i x Hi) as (y & Hy & Hs).
      destruct (step rt op w) as [w1 res]. cbn [fst] in Hy.
      destruct (IH w1 y Hy) as (z & Hz & Hs').
      destruct (run rt ops w1) as [w2 rs]. cbn [fst] in *.
      exists z. split; [exact Hz|]. eapply same_settings_trans; eauto. }
  destruct H as (y & Hy & Hs). exists y. split; [exact Hy|]. split; [exact Hs|].
  intros text. destruct Hs as (A & B & _). cbn. auto.
Qed.

Lemma settings_are_fixed_witness :
  exists y,
    heap (run sample_runtime
            [SetApiKey 0 (js "sk-new"); SetOfflineMode 0 true;
             CheckMessage 0 scenarioA quota_reply]
            (step sample_runtime
               (New (mkConfig None (Some (js "gpt-4o")) (Some (Fin 0)) None))
               sample_world).1).1 !! 0%nat = Some y /\
    model (config y) = js "gpt-4o" /\ temperature (config y) = Fin 0.
Proof.
  destruct (settings_are_fixed sample_runtime
              [SetApiKey 0 (js "sk-new"); SetOfflineMode 0 true;
               CheckMessage 0 scenarioA quota_reply]
              (step sample_runtime
                 (New (mkConfig None (Some (js "gpt-4o")) (Some (Fin 0)) None))
                 sample_world).1 0
              (constructor sample_runtime sample_env
                 (mkConfig None (Some (js "gpt-4o")) (Some (Fin 0)) None))
              eq_refl) as (y & Hy & (A & B & _) & _).
  exists y. split; [exact Hy|]. split; [exact A | exact B].
Defined.

(* ===================================================================== *)
(** ** Reset and reconfiguration                                          *)
(* ===================================================================== *)

Lemma call_checkMessage_online rt i text r w this :
  heap w !! i = Some this -> online (quotaExceeded w) this = true ->
  requests (call_checkMessage rt i text r w).1 =
  requests w ++ [request_of this text].
Proof.
  intros Hi Hon. unfold call_checkMessage. rewrite Hi. cbn [fst requests].
  rewrite online_sends, Hon. reflexivity.
Qed.

(** [resetQuotaStatus] clears the static flag only.  The instance that met
    the quota error had its own offline flag set as well, so after the
    reset it still answers by the rule-based classifier and sends nothing,
    while any other instance that is online sends requests again; the
    instance itself comes back with [setOfflineMode(false)]. *)
Theorem reset_leaves_instance_offline (rt : Runtime) (w : World) (i j : nat)
    (this other : ScamChecker) (text text' : jsstring) (r r' : reply)
    (e : thrown) :
  heap w !! i = Some this ->
  online (quotaExceeded w) this = true ->
  remote_failure rt r e ->
  quota_error e = true ->
  heap w !! j = Some other ->
  j <> i ->
  online false other = true ->
  let w1 := (step rt (CheckMessage i text r) w).1 in
  let w2 := (step rt ResetQuotaStatus w1).1 in
  quotaExceeded w2 = false /\
  step rt (CheckMessage i text' r') w2 =
    (w2, Some (performOfflineAnalysis rt text')) /\
  requests (step rt (CheckMessage j text' r') w2).1 =
    requests w2 ++ [request_of other text'] /\
  requests (step rt (CheckMessage i text' r')
              (step rt (SetOfflineMode i false) w2).1).1 =
    requests w2 ++ [request_of this text'].
Proof.
  intros Hi Hon Hf Hqe Hj Hne Hoj. cbv zeta.
  apply validate_failure in Hf.
  assert (Hlt : (i < length (heap w))%nat) by (eapply lookup_lt_Some; eauto).
  assert (Hcl : is_Some (openai this)).
  { unfold online in Hon. apply andb_prop in Hon as [_ Hd].
    apply bool_decide_eq_true in Hd. exact Hd. }
  assert (E1 : (step rt (CheckMessage i text r) w).1 =
               mkWorld true (env w)
                 (<[i := mkChecker (openai this) (config this) true]> (heap w))
                 (requests w ++ [request_of this text])).
  { cbn [step]. unfold call_checkMessage. rewrite Hi.
    rewrite (checkMessage_failure rt text r _ this e Hf), Hon, Hqe. reflexivity. }
  rewrite E1. cbn [step fst quotaExceeded env heap requests].
  set (h := <[i := mkChecker (openai this) (config this) true]> (heap w)).
  set (w2 := mkWorld false (env w) h (requests w ++ [request_of this text])).
  assert (Hi2 : heap w2 !! i = Some (mkChecker (openai this) (config this) true)).
  { cbn. unfold h. apply list_lookup_insert_eq, Hlt. }
  assert (Hj2 : heap w2 !! j = Some other).
  { cbn. unfold h. rewrite list_lookup_insert_ne by auto. exact Hj. }
  split; [reflexivity|]. split; [|split].
  - apply (call_checkMessage_offline rt i text' r' w2 _ Hi2). reflexivity.
  - apply (call_checkMessage_online rt j text' r' w2 other Hj2). exact Hoj.
  - unfold update_instance. rewrite Hi2. cbn [heap quotaExceeded env requests].
    assert (Es : setOfflineMode rt false (mkChecker (openai this) (config this) true) =
                 mkChecker (openai this) (config this) false).
    { unfold setOfflineMode. cbn [openai negb andb].
      rewrite bool_decide_eq_true_2 by exact Hcl. reflexivity. }
    rewrite Es.
    match goal with
    | |- requests (call_checkMessage _ _ _ _ ?W).1 = _ => set (w3 := W)
    end.
    rewrite (call_checkMessage_online rt i text' r' w3
               (mkChecker (openai this) (config this) false)).
    + reflexivity.
    + cbn. apply list_lookup_insert_eq. unfold h. rewrite length_insert. exact Hlt.
    + unfold online. cbn. rewrite bool_decide_eq_true_2 by exact Hcl. reflexivity.
Qed.

Lemma reset_leaves_instance_offline_witness :
  let w := (step sample_runtime (New (mkConfig (Some (js "sk-test")) None None None))
              (step sample_runtime (New (mkConfig None None None None))
                 sample_world).1).1 in
  let w2 := (step sample_runtime ResetQuotaStatus
               (step sample_runtime (CheckMessage 1 scenarioA quota_reply) w).1).1 in
  quotaExceeded w2 = false /\
  step sample_runtime (CheckMessage 1 scenarioB not_json) w2 =
    (w2, Some (performOfflineAnalysis sample_runtime scenarioB)).
Proof.
  cbv zeta.
  destruct (reset_leaves_instance_offline sample_runtime
              (step sample_runtime (New (mkConfig (Some (js "sk-test")) None None None))
                 (step sample_runtime (New (mkConfig None None None None))
                    sample_world).1).1
              1 0 online_checker
              (constructor sample_runtime sample_env (mkConfig None None None None))
              scenarioA scenarioB quota_reply not_json
              (Error "429 You exceeded your current quota")
              eq_refl eq_refl (transport_error sample_runtime _) eq_refl eq_refl
              ltac:(discriminate) eq_refl) as (A & B & _).
  split; [exact A | exact B].
Defined.

(** [setApiKey] with an empty key sets the offline flag but keeps the
    client that was there; [setOfflineMode(false)] then finds a client,
    makes no new one, and the instance is online again with an empty key
    in its configuration. *)
Theorem empty_key_keeps_client (rt : Runtime) (this : ScamChecker) (cl : OpenAI) :
  openai this = Some cl ->
  let this1 := setApiKey rt [] this in
  let this2 := setOfflineMode rt false this1 in
  (openai this1 = Some cl /\ isOfflineMode this1 = true) /\
  (openai this2 = Some cl /\ apiKey (config this2) = [] /\
   online false this2 = true).
Proof.
  intros H. cbv zeta. unfold setApiKey, setOfflineMode, initOpenAI, online.
  cbn. rewrite H. cbn. auto.
Qed.

Lemma empty_key_keeps_client_witness :
  online false (setOfflineMode sample_runtime false
                  (setApiKey sample_runtime [] online_checker)) = true.
Proof.
  exact (proj2 (proj2 (proj2 (empty_key_keeps_client sample_runtime online_checker
                                (mkOpenAI (js "sk-test")) eq_refl)))).
Defined.

(** With a client in place [setOfflineMode] only writes the flag: of two
    calls the last one wins, and setting the flag back restores the
    instance. *)
Theorem offline_toggle (rt : Runtime) (this : ScamChecker) (b1 b2 : bool) :
  is_Some (openai this) ->
  setOfflineMode rt b2 (setOfflineMode rt b1 this) =
    mkChecker (openai this) (config this) b2 /\
  setOfflineMode rt (isOfflineMode this)
    (setOfflineMode rt (negb (isOfflineMode this)) this) = this.
Proof.
  intros H.
  assert (E : forall b x, is_Some (openai x) ->
              setOfflineMode rt b x = mkChecker (openai x) (config x) b).
  { intros b x Hx. unfold setOfflineMode. cbn [openai].
    rewrite bool_decide_eq_true_2 by exact Hx.
    rewrite andb_false_r. reflexivity. }
  split.
  - rewrite (E b1 this H). rewrite E by exact H. reflexivity.
  - rewrite (E _ this H). rewrite E by exact H. destruct this; reflexivity.
Qed.

Lemma offline_toggle_witness :
  setOfflineMode sample_runtime false
    (setOfflineMode sample_runtime true online_checker) = online_checker.
Proof.
  exact (proj2 (offline_toggle sample_runtime online_checker true false
                  (ex_intro _ (mkOpenAI (js "sk-test")) eq_refl))).
Defined.

(** [forceOfflineMode] is read by the constructor only.  An instance that
    was constructed with it goes online with [setApiKey] and a key the
    client accepts, and with [setOfflineMode(false)] when the constructor
    had found a key, while its configuration still says
    [forceOfflineMode = true]. *)
Theorem forced_offline_is_undone (rt : Runtime) (e : Env) (c : ScamCheckerConfig)
    (x : N) (key : jsstring) (cl : OpenAI) :
  cfg_forceOfflineMode c = Some true ->
  new_OpenAI rt (x :: key) = Some cl ->
  (let this := setApiKey rt (x :: key) (constructor rt e c) in
   forceOfflineMode (config this) = true /\ online false this = true) /\
  (resolveApiKey e c = x :: key ->
   let this := setOfflineMode rt false (constructor rt e c) in
   forceOfflineMode (config this) = true /\ online false this = true).
Proof.
  intros Hc Hnew. split.
  - cbv zeta. unfold setApiKey, constructor. rewrite Hc.
    unfold initOpenAI, online. cbn. rewrite Hnew. cbn. auto.
  - intros Hk. cbv zeta.
    pose proof (constructor_config rt e c) as Hcfg.
    destruct (constructor_forced rt e c Hc) as [Ho Hf].
    unfold setOfflineMode. cbn [openai negb andb]. rewrite Ho.
    rewrite bool_decide_eq_false_2 by (intros [? ?]; discriminate).
    cbn [negb]. unfold initOpenAI. cbn [config apiKey openai isOfflineMode].
    rewrite Hcfg. cbn [apiKey]. rewrite Hk, Hnew.
    unfold online. cbn [config forceOfflineMode isOfflineMode openai].
    rewrite Hc. cbn. auto.
Qed.

Lemma forced_offline_is_undone_witness :
  let this := setApiKey sample_runtime (js "sk-new")
                (constructor sample_runtime sample_env
                   (mkConfig None None None (Some true))) in
  forceOfflineMode (config this) = true /\ online false this = true.
Proof.
  exact (proj1 (forced_offline_is_undone sample_runtime sample_env
                  (mkConfig None None None (Some true)) 115 (js "k-new")
                  (mkOpenAI (js "sk-new")) eq_refl eq_refl)).
Defined.

(* ===================================================================== *)
(** ** What decides the verdict                                           *)
(* ===================================================================== *)

Lemma spec_lengthScore_bounds t :
  (0 <= Spec.lengthScore t)%Q /\ (Spec.lengthScore t <= 5)%Q.
Proof.
  unfold Spec.lengthScore. split; [|apply Q.le_min_r].
  apply Q.min_glb; [|discriminate].
  apply Qle_shift_div_l; [reflexivity|]. rewrite Qmult_0_l.
  apply inject_nat_nonneg.
Qed.

Lemma spec_totalScore_weight t :
  (Spec.totalScore t == inject_Z (10 * Z.of_nat (weight t)) + Spec.lengthScore t)%Q.
Proof.
  unfold Spec.totalScore, Spec.urlCount, Spec.capsScore, Spec.matchCount, weight.
  rewrite <- matchCount_spec.
  rewrite !Nat2Z.inj_add, inject_Z_mult, !inject_Z_plus.
  destruct (3 * length t <? 10 * ascii_capitals t)%nat; cbn [Z.of_nat]; ring.
Qed.

Lemma band_arith (n : nat) (L T c : Q) :
  (T == inject_Z (10 * Z.of_nat n) + L)%Q ->
  (0 <= L)%Q -> (L <= 5)%Q ->
  (c == Qmin T 100)%Q -> (0 <= c)%Q -> (c <= 100)%Q ->
  if (3 <=? n)%nat then (30 <= c)%Q /\ (c <= 100)%Q
  else (0 <= c)%Q /\ (c <= 25)%Q.
Proof.
  intros HT L0 L5 Hspec Hpos Hle.
  destruct (Nat.leb_spec 3 n) as [Hw|Hw].
  - split; [|exact Hle]. rewrite Hspec. apply Q.min_glb; [|discriminate].
    rewrite HT. rewrite <- (Qplus_0_r 30).
    apply Qplus_le_compat; [|exact L0].
    change 30%Q with (inject_Z 30). rewrite <- Zle_Qle. lia.
  - split; [exact Hpos|]. rewrite Hspec.
    eapply Qle_trans; [apply Q.le_min_l|]. rewrite HT.
    change 25%Q with (inject_Z 20 + 5)%Q.
    apply Qplus_le_compat; [|exact L5]. rewrite <- Zle_Qle. lia.
Qed.

Lemma spec_confidenceScore_unfold t :
  Spec.confidenceScore t = Qmin (Spec.totalScore t) 100.
Proof. reflexivity. Qed.

Lemma weight_unfold t :
  weight t = (matchCount t + url_occurrences t +
              (if 3 * length t <? 10 * ascii_capitals t then 1 else 0))%nat.
Proof. unfold weight. reflexivity. Qed.

(** The confidence score lies in [30, 100] when the weight is at least 3,
    and in [0, 25] otherwise: the length of the text never decides. *)
Lemma score_band t :
  exists c, confidenceScore t = Fin c /\
    if (3 <=? weight t)%nat then (30 <= c)%Q /\ (c <= 100)%Q
    else (0 <= c)%Q /\ (c <= 25)%Q.
Proof.
  destruct (confidenceScore_Fin t) as (c & Hc & Hspec & Hpos & Hle).
  exists c. split; [exact Hc|].
  destruct (spec_lengthScore_bounds t) as [L0 L5].
  pose proof (spec_totalScore_weight t) as HT.
  rewrite spec_confidenceScore_unfold in Hspec.
  revert HT L0 L5 Hspec Hpos Hle.
  generalize (weight t) (Spec.lengthScore t) (Spec.totalScore t).
  intros n L T HT L0 L5 Hspec Hpos Hle.
  exact (band_arith n L T c HT L0 L5 Hspec Hpos Hle).
Qed.

Lemma isScam_band rt t c :
  confidenceScore t = Fin c ->
  isScam (performOfflineAnalysis rt t) = Qle_bool 30 c.
Proof. intros H. unfold performOfflineAnalysis. cbn [isScam]. rewrite H. reflexivity. Qed.

(** The verdict does not depend on the length of the text: it is scam
    exactly when the matching rules, the URL prefixes and the capitals
    (one when more than three tenths of the code units are ASCII
    capitals) count three or more. *)
Theorem verdict_by_weight (rt : Runtime) (t : jsstring) :
  isScam (performOfflineAnalysis rt t) =
  (3 <=? matchCount t + url_occurrences t +
         (if 3 * length t <? 10 * ascii_capitals t then 1 else 0))%nat.
Proof.
  rewrite <- weight_unfold.
  destruct (score_band t) as (c & Hc & Hband).
  rewrite (isScam_band rt t c Hc).
  destruct (3 <=? weight t)%nat.
  - apply Qle_bool_iff. tauto.
  - destruct (Qle_bool 30 c) eqn:E; [|reflexivity].
    apply Qle_bool_iff in E. destruct Hband as [_ H25].
    exfalso. apply (Qle_not_lt _ _ (Qle_trans _ _ _ E H25)). reflexivity.
Qed.

(** The confidence of the rule-based classifier is never low: at least 30
    for a scam verdict and at least 75 for a safe one, and at most 100. *)
Theorem heuristic_confidence_bounds (rt : Runtime) (t : jsstring) :
  let r := performOfflineAnalysis rt t in
  match isScam r with
  | true => in_range 30 100 (confidence r)
  | false => in_range 75 100 (confidence r)
  end.
Proof.
  cbv zeta. destruct (score_band t) as (c & Hc & Hband).
  rewrite (isScam_band rt t c Hc).
  unfold performOfflineAnalysis. cbn [confidence]. rewrite Hc.
  change (js_ge (Fin c) scamThreshold) with (Qle_bool 30 c).
  destruct (Qle_bool 30 c) eqn:E; cbn [in_range].
  - apply Qle_bool_iff in E. split; [exact E|].
    destruct (3 <=? weight t)%nat; [tauto|].
    eapply Qle_trans; [apply Hband | discriminate].
  - assert (Hb : (0 <= c)%Q /\ (c <= 25)%Q).
    { destruct (3 <=? weight t)%nat; [|exact Hband].
      destruct Hband as [H30 _]. apply Qle_bool_iff in H30. congruence. }
    unfold js_sub, js_neg, js_add, of_nat, in_range.
    change (inject_Z (Z.of_nat 100)) with 100%Q. destruct Hb as [H0 H25]. split.
    + change 75%Q with (100 + - 25)%Q. apply Qplus_le_compat; [apply Qle_refl|].
      exact (Qopp_le_compat c 25 H25).
    + rewrite <- (Qplus_0_r 100) at 2. apply Qplus_le_compat; [apply Qle_refl|].
      apply Qopp_le_compat in H0. exact H0.
Qed.

Lemma filter_length_existsb {A} (f : A -> bool) l :
  (0 <? length (List.filter f l))%nat = existsb f l.
Proof.
  induction l as [|x l IH]; [reflexivity|]. cbn [List.filter existsb].
  destruct (f x); [reflexivity | exact IH].
Qed.

(** For a text that is not classified as scam the explanation gives the
    score, says that no common pattern was detected exactly when none of
    the fourteen rules matches (and that some concerning elements were
    found otherwise, URL prefixes and capitals not counting), and ends
    with the disclaimer. *)
Theorem safe_explanation (rt : Runtime) (t : jsstring) :
  isScam (performOfflineAnalysis rt t) = false ->
  explanation (performOfflineAnalysis rt t) =
  js "Rule-based analysis found limited scam indicators (score: " ++
  toFixed rt (confidenceScore t) 1 ++ js ")." ++
  (if existsb (rule_matches t) (seq 0 14)
   then js " Some potentially concerning elements were found, but they didn't reach the threshold for classification as a scam."
   else js " No common scam patterns were detected.") ++
  disclaimer.
Proof.
  unfold performOfflineAnalysis. cbn [isScam explanation]. intros ->.
  unfold safeExplanation. rewrite matchCount_spec. unfold matching_rules.
  rewrite filter_length_existsb. change (length scamPatterns) with 14%nat.
  destruct (existsb (rule_matches t) (seq 0 14));
    repeat rewrite <- app_assoc; reflexivity.
Qed.

Lemma safe_explanation_witness :
  explanation (performOfflineAnalysis sample_runtime scenarioB) =
  js "Rule-based analysis found limited scam indicators (score: 2.3). No common scam patterns were detected. Note: This analysis uses rule-based detection without AI assistance.".
Proof.
  rewrite (safe_explanation sample_runtime scenarioB) by (vm_compute; reflexivity).
  vm_compute. reflexivity.
Defined.

(* ===================================================================== *)
(** ** Text around a message                                              *)
(* ===================================================================== *)

Lemma rule_matches_padding t a b i :
  rule_matches t i = true -> rule_matches (a ++ t ++ b) i = true.
Proof.
  rewrite !rule_matches_lang.
  intros (p & a' & m & b' & Hp & -> & Hl).
  exists p, (a ++ a'), m, (b' ++ b). split; [exact Hp|]. split; [|exact Hl].
  rewrite <- !app_assoc. reflexivity.
Qed.

Lemma filter_length_le_pointwise {A} (f g : A -> bool) l :
  (forall x, f x = true -> g x = true) ->
  (length (List.filter f l) <= length (List.filter g l))%nat.
Proof.
  intros H. induction l as [|x l IH]; [reflexivity|]. cbn [List.filter].
  destruct (f x) eqn:Ef.
  - rewrite (H x Ef). cbn. lia.
  - destruct (g x); cbn; lia.
Qed.

Lemma startsWith_app_r w : forall s b,
  startsWith w s = true -> startsWith w (s ++ b) = true.
Proof.
  induction w as [|x w IH]; intros s b H; [reflexivity|].
  destruct s as [|y s]; [discriminate|]. cbn in *.
  apply andb_prop in H as [H1 H2]. rewrite H1. cbn. apply IH, H2.
Qed.

Lemma url_occurrences_app_r s b :
  (url_occurrences s <= url_occurrences (s ++ b))%nat.
Proof.
  induction s as [|x s IH]; [cbn; lia|].
  change ((x :: s) ++ b) with (x :: (s ++ b)). cbn [url_occurrences].
  assert (H : scheme_here (x :: s) = true -> scheme_here (x :: s ++ b) = true).
  { unfold scheme_here. intros H. apply orb_prop in H as [H|H].
    - pose proof (startsWith_app_r _ (x :: s) b H) as H'. cbn [app] in H'.
      rewrite H'. reflexivity.
    - pose proof (startsWith_app_r _ (x :: s) b H) as H'. cbn [app] in H'.
      rewrite H'. apply orb_true_r. }
  destruct (scheme_here (x :: s)); [rewrite (H eq_refl)|]; lia.
Qed.

Lemma url_occurrences_app_l a s :
  (url_occurrences s <= url_occurrences (a ++ s))%nat.
Proof.
  induction a as [|x a IH]; [reflexivity|]. cbn [app url_occurrences]. lia.
Qed.

(** Text put before or after a message removes no rule match and no URL
    prefix; a message that three rules or URL prefixes make a scam stays a
    scam whatever is put around it. *)
Theorem padding_keeps_matches (rt : Runtime) (a t b : jsstring) :
  (matchCount t <= matchCount (a ++ t ++ b))%nat /\
  (url_occurrences t <= url_occurrences (a ++ t ++ b))%nat /\
  ((3 <=? matchCount t + url_occurrences t)%nat = true ->
   isScam (performOfflineAnalysis rt (a ++ t ++ b)) = true).
Proof.
  assert (Hm : (matchCount t <= matchCount (a ++ t ++ b))%nat).
  { rewrite !matchCount_spec. unfold matching_rules.
    apply filter_length_le_pointwise. intros i. apply rule_matches_padding. }
  assert (Hu : (url_occurrences t <= url_occurrences (a ++ t ++ b))%nat).
  { etransitivity; [apply (url_occurrences_app_r t b)|].
    apply url_occurrences_app_l. }
  split; [exact Hm|]. split; [exact Hu|].
  intros H. apply Nat.leb_le in H.
  destruct (score_band (a ++ t ++ b)) as (c & Hc & Hband).
  rewrite (isScam_band rt _ c Hc).
  assert (Hw : (3 <=? weight (a ++ t ++ b))%nat = true)
    by (apply Nat.leb_le; unfold weight; lia).
  rewrite Hw in Hband. apply Qle_bool_iff. tauto.
Qed.

Lemma padding_keeps_matches_witness :
  isScam (performOfflineAnalysis sample_runtime
            (js "hello, " ++ scenarioA ++ js " thanks and good night")) = true.
Proof.
  apply (padding_keeps_matches sample_runtime (js "hello, ") scenarioA
           (js " thanks and good night")).
  vm_compute. reflexivity.
Defined.

(* ===================================================================== *)
(** ** The remote response                                                *)
(* ===================================================================== *)

Lemma startsWith_spec w s : startsWith w s = true <-> exists b, s = w ++ b.
Proof.
  split.
  - intros H. exists (drop (length w) s). apply startsWith_split, H.
  - intros [b ->]. induction w as [|x w IH]; [reflexivity|].
    cbn. rewrite N.eqb_refl. exact IH.
Qed.

Lemma includes_spec needle s :
  includes needle s = true <-> exists a b, s = a ++ needle ++ b.
Proof.
  induction s as [|x s IH]; cbn [includes].
  - rewrite orb_false_r, startsWith_spec. split.
    + intros [b Hb]. exists [], b. exact Hb.
    + intros (a & b & H). symmetry in H. apply app_eq_nil in H as [-> H].
      exists b. symmetry. exact H.
  - rewrite orb_true_iff, startsWith_spec, IH. split.
    + intros [[b Hb]|(a & b & ->)].
      * exists [], b. exact Hb.
      * exists (x :: a), b. reflexivity.
    + intros (a & b & H). destruct a as [|y a].
      * left. exists b. exact H.
      * right. injection H as <- ->. eauto.
Qed.

(** The handler takes an error for a quota error exactly when its message
    holds [429], [exceeded your current quota] or [rate limit] as a
    substring, in this very spelling. *)
Theorem quota_signature_substring (errorMessage : jsstring) :
  quotaSignature errorMessage = true <->
  exists a b,
    errorMessage = a ++ js "429" ++ b \/
    errorMessage = a ++ js "exceeded your current quota" ++ b \/
    errorMessage = a ++ js "rate limit" ++ b.
Proof.
  unfold quotaSignature. rewrite !orb_true_iff, !includes_spec. split.
  - intros [[(a & b & H)|(a & b & H)]|(a & b & H)]; exists a, b; auto.
  - intros (a & b & [H|[H|H]]); eauto.
Qed.

(** The clamp of the remote confidence: a number from 0 to 100 is kept as
    it is, a larger one (or an overflow) becomes 100, a smaller one 0. *)
Theorem clamp_saturates (n : json_number) :
  clamp (number_of_json n) =
  match n with
  | JOverflow true => Fin 100
  | JOverflow false => Fin 0
  | JFinite q =>
      if Qle_bool 100 q then Fin 100 else if Qle_bool 0 q then Fin q else Fin 0
  end.
Proof.
  destruct n as [q|[|]]; try reflexivity.
  unfold clamp, number_of_json, of_nat. rewrite Math_min_Fin, Math_max_Fin.
  change (inject_Z (Z.of_nat 100)) with 100%Q.
  change (inject_Z (Z.of_nat 0)) with 0%Q.
  destruct (Qle_bool 100 q); [reflexivity|].
  destruct (Qle_bool 0 q); reflexivity.
Qed.

Lemma well_typed_validate rt x content v b n s :
  JSON_parse rt (x :: content) = inr v ->
  well_typed rt v = Some (b, n, s) ->
  validate rt (Content (Some (x :: content))) =
  inr (mkResult b (clamp (number_of_json n)) s).
Proof.
  intros Hp Hw. cbn [validate truthy]. rewrite Hp. unfold well_typed in Hw.
  destruct (get_property rt v "isScam") as [e|[[]|]]; try discriminate.
  destruct (get_property rt v "confidence") as [e|[[]|]]; try discriminate.
  destruct (get_property rt v "explanation") as [e|[[]|]]; try discriminate.
  injection Hw as <- <- <-. reflexivity.
Qed.

(** A call that reaches the remote service and gets a well-typed response
    returns that response, its verdict and explanation as they are and its
    confidence clamped; the rule-based classifier is not consulted, one
    request is sent, and neither flag changes. *)
Theorem remote_success (rt : Runtime) (text : jsstring) (q : bool)
    (this : ScamChecker) (x : N) (content : jsstring) (v : JSON)
    (b : bool) (n : json_number) (s : jsstring) :
  online q this = true ->
  JSON_parse rt (x :: content) = inr v ->
  well_typed rt v = Some (b, n, s) ->
  checkMessage rt text (Content (Some (x :: content))) q this =
  mkOutcome (mkResult b (clamp (number_of_json n)) s) q this
            (Some (request_of this text)).
Proof.
  intros Hon Hp Hw. unfold online in Hon.
  apply andb_prop in Hon as [Hon Hcl]. apply andb_prop in Hon as [Hq Hoff].
  apply negb_true_iff in Hq, Hoff. subst q.
  unfold checkMessage. rewrite Hoff, Hcl. cbn [orb negb].
  rewrite (well_typed_validate rt x content v b n s Hp Hw). reflexivity.
Qed.

Lemma remote_success_witness :
  out_result (checkMessage sample_runtime scenarioB (Content (Some sample_content))
                false online_checker) =
  mkResult true (Fin 100) (js "prize scam").
Proof.
  assert (H : checkMessage sample_runtime scenarioB (Content (Some sample_content))
                false online_checker =
              mkOutcome (mkResult true (clamp (number_of_json (JFinite 250)))
                           (js "prize scam"))
                false online_checker (Some (request_of online_checker scenarioB)))
    by exact (remote_success sample_runtime scenarioB false online_checker
                123 (tl sample_content) _ true (JFinite 250) (js "prize scam")
                eq_refl eq_refl eq_refl).
  rewrite H. reflexivity.
Defined.

(* ===================================================================== *)
(** ** The standalone function and the requests                           *)
(* ===================================================================== *)

Lemma insert_last {A} (l : list A) (x y : A) :
  <[length l := y]> (l ++ [x]) = l ++ [y].
Proof. induction l as [|z l IH]; [reflexivity|]. cbn. f_equal. exact IH. Qed.

Lemma step_standalone rt text key offlineMode r w :
  step rt (Standalone text key offlineMode r) w =
  ((standalone_checkMessage rt text key offlineMode r w).2,
   Some (standalone_checkMessage rt text key offlineMode r w).1).
Proof.
  cbn [step]. unfold call_checkMessage, new_instance, standalone_checkMessage.
  cbn [heap quotaExceeded env requests fst snd].
  rewrite list_lookup_middle by reflexivity. rewrite insert_last. reflexivity.
Qed.

Lemma online_flag q this : online q this = negb q && online false this.
Proof. unfold online. destruct q; reflexivity. Qed.

(** The standalone [checkMessage] makes an instance of its own for each
    call and leaves the instances there are untouched.  It sends a request
    exactly when the static flag is clear, [offlineMode] is false, a key
    that is not empty is found and the client can be made; the request has
    the default model and temperature. *)
Theorem standalone_call (rt : Runtime) (text : jsstring) (key : option jsstring)
    (offlineMode : bool) (r : reply) (w : World) :
  let s := standalone_checkMessage rt text key offlineMode r w in
  step rt (Standalone text key offlineMode r) w = (s.2, Some s.1) /\
  take (length (heap w)) (heap s.2) = heap w /\
  length (heap s.2) = S (length (heap w)) /\
  requests s.2 =
    requests w ++
    if negb (quotaExceeded w) && negb offlineMode &&
       match resolveApiKey (env w) (mkConfig key None None (Some offlineMode)) with
       | [] => false
       | k => bool_decide (is_Some (new_OpenAI rt k))
       end
    then [mkRequest (js "gpt-3.5-turbo") (Fin (3 # 10))
            (js "Analyze this message:" ++ [10; 34] ++ text ++ [34])]
    else [].
Proof.
  cbv zeta. split; [apply step_standalone|].
  unfold standalone_checkMessage. cbn [snd heap requests].
  split; [apply take_app_length|].
  split; [rewrite length_app; cbn; lia|].
  rewrite online_sends, online_flag, constructor_online.
  change (default false (cfg_forceOfflineMode (mkConfig key None None (Some offlineMode))))
    with offlineMode.
  rewrite andb_assoc.
  destruct (negb (quotaExceeded w) && negb offlineMode && _); [|reflexivity].
  unfold request_of. rewrite constructor_config. reflexivity.
Qed.

Lemma step_requests rt op w :
  exists new, requests (step rt op w).1 = requests w ++ new /\
              (length new <= if is_call op then 1 else 0)%nat.
Proof.
  assert (Hc : forall i text r w0,
             exists new, requests (call_checkMessage rt i text r w0).1 =
                         requests w0 ++ new /\ (length new <= 1)%nat).
  { intros i text r w0. unfold call_checkMessage.
    destruct (heap w0 !! i) as [this|]; cbn [fst requests].
    - eexists. split; [reflexivity|].
      destruct (out_request _); cbn; lia.
    - exists []. rewrite app_nil_r. split; [reflexivity | cbn; lia]. }
  destruct op; cbn [step fst is_call].
  - exists []. rewrite app_nil_r. split; [reflexivity | cbn; lia].
  - exists []. rewrite app_nil_r. split; [|cbn; lia].
    unfold update_instance. destruct (heap w !! this); reflexivity.
  - exists []. rewrite app_nil_r. split; [|cbn; lia].
    unfold update_instance. destruct (heap w !! this); reflexivity.
  - apply Hc.
  - exists []. rewrite app_nil_r. split; [reflexivity | cbn; lia].
  - destruct (Hc (length (heap w)) messageText r
                (new_instance rt (mkConfig key None None (Some offlineMode)) w))
      as (new & Hn & Hl).
    exists new. split; [exact Hn | exact Hl].
Qed.

(** The requests that were sent are never taken back, and a program sends
    at most one request for each call of [checkMessage]: there is no
    retry, and no other operation talks to the remote service. *)
Theorem one_request_per_call (rt : Runtime) (ops : list Op) (w : World) :
  exists new,
    requests (run rt ops w).1 = requests w ++ new /\
    (length new <= length (List.filter is_call ops))%nat.
Proof.
  revert w. induction ops as [|op ops IH]; intros w; cbn [run].
  - exists []. rewrite app_nil_r. split; [reflexivity | cbn; lia].
  - destruct (step_requests rt op w) as (n1 & H1 & L1).
    destruct (step rt op w) as [w1 res]. cbn [fst] in H1.
    destruct (IH w1) as (n2 & H2 & L2).
    destruct (run rt ops w1) as [w2 rs]. cbn [fst] in *.
    exists (n1 ++ n2). split.
    + rewrite H2, H1, app_assoc. reflexivity.
    + rewrite length_app. cbn [List.filter]. destruct (is_call op); cbn [length]; lia.
Qed.

(* ===================================================================== *)
(** ** The page                                                           *)
(* ===================================================================== *)

Lemma trimStart_nil s : trimStart s = [] <-> blank s = true.
Proof.
  unfold blank. induction s as [|x s IH]; cbn [trimStart forallb]; [tauto|].
  destruct (cset_mem x white); cbn [andb]; [exact IH|]. split; discriminate.
Qed.

Lemma trimStart_blank s : blank (trimStart s) = blank s.
Proof.
  unfold blank. induction s as [|x s IH]; [reflexivity|]. cbn [trimStart].
  destruct (cset_mem x white) eqn:E; cbn [forallb]; rewrite ?E; auto.
Qed.

Lemma blank_rev s : blank (rev s) = blank s.
Proof.
  unfold blank. apply eq_true_iff_eq. rewrite !forallb_forall.
  split; intros H x Hx; apply H; [apply in_rev in Hx|apply in_rev]; exact Hx.
Qed.

Lemma trim_nil s : trim s = [] <-> blank s = true.
Proof.
  unfold trim. split.
  - intros H. apply (f_equal (@rev N)) in H. rewrite rev_involutive in H.
    cbn in H. apply trimStart_nil in H.
    rewrite blank_rev, trimStart_blank in H. exact H.
  - intros H. apply trimStart_nil in H. rewrite H. reflexivity.
Qed.

Lemma checkMessage_confidence rt text r q this :
  in_range 0 100 (confidence (out_result (checkMessage rt text r q this))).
Proof.
  destruct (checkMessage_result rt text r q this) as [-> | Hv].
  - apply heuristic_confidence_range.
  - apply validate_success in Hv as (b & n & s & ->). apply clamp_range.
Qed.

Lemma handleAnalyze_state rt now date r ui w :
  (handleAnalyze rt now date r ui w).1 =
  if blank (message ui) then (ui, w)
  else
    let s := standalone_checkMessage rt (message ui) None false r w in
    (mkSmsFilter (message ui) false (Some s.1)
       (mkMessage (Integer_toString now) (message ui) (Some s.1) date :: history ui),
     s.2).
Proof.
  unfold handleAnalyze. destruct (blank (message ui)) eqn:E.
  - apply trim_nil in E. rewrite E. reflexivity.
  - destruct (trim (message ui)) as [|x t] eqn:Et; [|reflexivity].
    apply trim_nil in Et. congruence.
Qed.

(** [handleAnalyze] turns away a message that is blank (empty, or white
    space and line terminators only): nothing is analysed, no instance is
    made, no request is sent and the state stays as it is.  Any other
    message goes to the standalone [checkMessage] as it was typed, not
    trimmed, with no key and no [offlineMode]; the result becomes the
    current result and the head of the history. *)
Theorem blank_message_is_turned_away (rt : Runtime) (now date : N) (r : reply)
    (ui : SmsFilter) (w : World) :
  handleAnalyze rt now date r ui w =
  if blank (message ui)
  then (ui, w, mkToast (js "Empty message")
                 (js "Please enter an SMS message to analyze."))
  else
    let s := standalone_checkMessage rt (message ui) None false r w in
    (mkSmsFilter (message ui) false (Some s.1)
       (mkMessage (Integer_toString now) (message ui) (Some s.1) date :: history ui),
     s.2,
     if isScam s.1
     then mkToast (js "Potential scam detected!")
            (js "This message has characteristics of a scam. Be cautious!")
     else mkToast (js "Message appears safe")
            (js "This message appears to be legitimate.")).
Proof.
  unfold handleAnalyze. destruct (blank (message ui)) eqn:E.
  - apply trim_nil in E. rewrite E. reflexivity.
  - destruct (trim (message ui)) as [|x t] eqn:Et.
    + apply trim_nil in Et. congruence.
    + cbv zeta. unfold finishAnalyze. cbn [fst snd message history].
      destruct (isScam _); reflexivity.
Qed.

Lemma ui_run_invariant rt (P : SmsFilter * World -> Prop) :
  (forall ev s, P s -> P (ui_step rt ev s)) ->
  forall evs s, P s -> P (ui_run rt evs s).
Proof.
  intros Hstep evs. unfold ui_run.
  induction evs as [|ev evs IH]; intros s Hs; cbn [fold_left]; [exact Hs|].
  apply IH, Hstep, Hs.
Qed.

Lemma ui_step_analysed rt ev s :
  Forall analysed (history s.1) -> Forall analysed (history (ui_step rt ev s).1).
Proof.
  intros H. destruct ev; cbn [ui_step fst history handleClear clearHistory];
    try exact H; [|constructor].
  rewrite handleAnalyze_state. destruct (blank (message s.1)) eqn:E; [exact H|].
  cbv zeta. cbn [fst history]. constructor; [|exact H].
  split; [exact E|]. eexists. split; [reflexivity|].
  unfold standalone_checkMessage. cbn [fst]. apply checkMessage_confidence.
Qed.

(** Every entry the page puts into the history has a text that is not
    blank and a result with a confidence in [0, 100]; so [MessageHistory]
    shows one row for each entry, each with a confidence to show. *)
Theorem history_entries_are_analysed (rt : Runtime) (evs : list UiEvent)
    (s : SmsFilter * World) :
  Forall analysed (history s.1) ->
  let h := history (ui_run rt evs s).1 in
  Forall analysed h /\
  forall rows, MessageHistory h = Some rows ->
    length rows = length h /\
    Forall (fun row => exists c, row_confidence row = Some c /\ in_range 0 100 c)
           rows.
Proof.
  intros H. cbv zeta.
  assert (Hh : Forall analysed (history (ui_run rt evs s).1)).
  { apply (ui_run_invariant rt (fun s => Forall analysed (history s.1))); [|exact H].
    intros ev s0. apply ui_step_analysed. }
  split; [exact Hh|]. intros rows Hrows.
  assert (E : rows = map history_row (history (ui_run rt evs s).1)).
  { destruct (history (ui_run rt evs s).1); [discriminate|].
    injection Hrows as <-. reflexivity. }
  rewrite E. split; [apply length_map|].
  apply Forall_map. eapply Forall_impl; [exact Hh|].
  intros m0 (_ & res & Hres & Hrange). unfold history_row. cbn [row_confidence].
  rewrite Hres. cbn. eauto.
Qed.

Lemma history_entries_are_analysed_witness :
  Forall analysed
    (history (ui_run sample_runtime
                [TypeMessage scenarioA; ClickAnalyze 1700000000000 1700000000001 quota_reply;
                 TypeMessage (js "   "); ClickAnalyze 1700000000500 1700000000500 not_json;
                 TypeMessage scenarioB; ClickAnalyze 1700000001000 1700000001000 not_json]
                (mkSmsFilter [] false None [], sample_world)).1).
Proof.
  apply (history_entries_are_analysed sample_runtime). constructor.
Defined.

(** The result panel never shows a result older than the newest entry of
    the history: it is empty, or it shows the result of that entry. *)
Theorem panel_shows_newest (rt : Runtime) (evs : list UiEvent)
    (s : SmsFilter * World) :
  panel_current s.1 -> panel_current (ui_run rt evs s).1.
Proof.
  apply (ui_run_invariant rt (fun s => panel_current s.1)).
  clear. intros ev s H. destruct ev; cbn [ui_step fst handleClear clearHistory].
  - exact H.
  - rewrite handleAnalyze_state. destruct (blank (message s.1)); [exact H|].
    cbv zeta. unfold panel_current. cbn. right. reflexivity.
  - unfold panel_current in *. cbn. destruct (history s.1); auto.
  - exact I.
Qed.

Lemma panel_shows_newest_witness :
  panel_current
    (ui_run sample_runtime
       [TypeMessage scenarioA; ClickAnalyze 1700000000000 1700000000001 quota_reply;
        ClickClearAll; TypeMessage scenarioB;
        ClickAnalyze 1700000001000 1700000001000 not_json]
       (mkSmsFilter [] false None [], sample_world)).1.
Proof.
  apply (panel_shows_newest sample_runtime). exact I.
Defined.



